(** * The orders and products resolvers

    Shallow embedding of the request handlers of [src/resolvers/orders.ts]
    (the orders router and the products router: listing with cursor
    pagination, creation, lookup, update and archival) together with the
    pieces of the platform they run on: JavaScript truthiness and
    [parseInt], MongoDB object ids, the Mongoose query builder and
    collections held in memory. *)

From Stdlib Require Import List String Ascii ZArith NArith Lia Bool.
From Stdlib Require Import Sorted Permutation.
Import ListNotations.
Open Scope string_scope.
Set Warnings "-register-all".

(** ** Exceptions

    The handlers run inside [try { ... } catch (err) { res.sendStatus(422) }];
    every call that may throw returns in [Exc]. *)

Inductive Error : Type :=
| InvalidCursor      (* the cursor codec refused its input *)
| CastError          (* Mongoose could not cast a value of a query *)
| SyntaxError        (* [new RegExp] on a pattern that does not compile *)
| TypeError          (* a method called on a value that lacks it *)
| BSONTypeError      (* [new ObjectId] on a value that is no object id *)
| ValidationError    (* a document refused on [save] *)
| StoreQueryFailed.  (* the store could not be reached *)

Inductive Exc (A : Type) : Type :=
| Ok (a : A)
| Throw (e : Error).
Arguments Ok {A} a.
Arguments Throw {A} e.

Definition bind {A B : Type} (m : Exc A) (k : A -> Exc B) : Exc B :=
  match m with
  | Ok a => k a
  | Throw e => Throw e
  end.

Declare Scope exc_scope.
Delimit Scope exc_scope with exc.
Notation "x <- m ;; k" := (bind m (fun x => k))
  (at level 61, m at next level, right associativity) : exc_scope.
Notation "'await' x <- m ;; k" := (bind m (fun x => k))
  (at level 61, x name, m at next level, right associativity) : exc_scope.

(** [try body catch handler] *)
Definition try_catch {A : Type} (body : Exc A) (handler : Error -> A) : A :=
  match body with
  | Ok a => a
  | Throw e => handler e
  end.

(** ** JavaScript values used by the handlers

    A string holds the UTF-8 bytes of the JavaScript string. *)

Module JS.

(** The result of [parseInt]: [NaN], a double that is an integer, or an
    infinity. *)
Inductive Number : Type :=
| NaN
| Num (z : Z)
| Infinity (negative : bool).

Definition code (c : ascii) : N := N_of_ascii c.

(** The white space and line terminators of one byte: TAB, LF, VT, FF,
    CR and SPACE (and the byte 160 on its own, which is how a string of
    one-byte characters holds U+00A0). *)
Definition isWhiteSpace1 (a : N) : bool :=
  ((9 <=? a) && (a <=? 13) || (a =? 32) || (a =? 160))%N.

(** U+00A0, in two bytes. *)
Definition isWhiteSpace2 (a b : N) : bool :=
  ((a =? 194) && (b =? 160))%N.

(** In three bytes: U+1680, U+2000 to U+200A, U+2028, U+2029, U+202F,
    U+205F, U+3000 and U+FEFF. *)
Definition isWhiteSpace3 (a b c : N) : bool :=
  ((a =? 225) && (b =? 154) && (c =? 128)
   || (a =? 226) && (b =? 128)
      && ((128 <=? c) && (c <=? 138) || (c =? 168) || (c =? 169) || (c =? 175))
   || (a =? 226) && (b =? 129) && (c =? 159)
   || (a =? 227) && (b =? 128) && (c =? 128)
   || (a =? 239) && (b =? 187) && (c =? 191))%N.

Fixpoint trimStart (l : list ascii) : list ascii :=
  match l with
  | [] => []
  | c1 :: l1 =>
      if isWhiteSpace1 (code c1) then trimStart l1
      else
        match l1 with
        | [] => l
        | c2 :: l2 =>
            if isWhiteSpace2 (code c1) (code c2) then trimStart l2
            else
              match l2 with
              | [] => l
              | c3 :: l3 =>
                  if isWhiteSpace3 (code c1) (code c2) (code c3)
                  then trimStart l3
                  else l
              end
        end
  end.

Definition digitValue (c : ascii) : option Z :=
  if ((48 <=? code c) && (code c <=? 57))%N
  then Some (Z.of_N (code c) - 48)%Z
  else None.

(** The longest prefix of decimal digits. *)
Fixpoint digitsPrefix (l : list ascii) : list Z :=
  match l with
  | c :: l' =>
      match digitValue c with
      | Some d => d :: digitsPrefix l'
      | None => []
      end
  | [] => []
  end.

Definition mathInt (ds : list Z) : Z :=
  fold_left (fun acc d => 10 * acc + d)%Z ds 0%Z.

(** The double nearest to an integer, ties to the even mantissa: below
    2^53 the integer itself, from 2^1024 on (after rounding) an
    infinity. *)
Definition toDouble (z : Z) : Number :=
  let a := Z.abs z in
  if (a <? 2 ^ 53)%Z then Num z
  else
    let e := (Z.log2 a - 52)%Z in
    let q := (a / 2 ^ e)%Z in
    let r := (a mod 2 ^ e)%Z in
    let half := (2 ^ (e - 1))%Z in
    let q' :=
      if ((half <? r) || (r =? half) && Z.odd q)%Z then (q + 1)%Z else q in
    let v := (q' * 2 ^ e)%Z in
    if (2 ^ 1024 <=? v)%Z then Infinity (z <? 0)%Z
    else Num (Z.sgn z * v).

(** [parseInt(s, 10)]: skip leading white space, read an optional sign,
    then the longest run of decimal digits; [NaN] when that run is empty,
    otherwise the double of the signed integer read. *)
Definition parseInt (s : string) : Number :=
  let trimmed := trimStart (list_ascii_of_string s) in
  let '(sign, rest) :=
    match trimmed with
    | c :: tl =>
        if Ascii.eqb c "-" then ((-1)%Z, tl)
        else if Ascii.eqb c "+" then (1%Z, tl)
        else (1%Z, trimmed)
    | [] => (1%Z, trimmed)
    end in
  match digitsPrefix rest with
  | [] => NaN
  | ds => toDouble (sign * mathInt ds)
  end.

(** Truthiness of a string ([""] is falsy) and of a number ([NaN] and
    [0] are falsy); [undefined] is falsy too, see [truthy]. *)
Definition truthy_string (s : string) : bool := negb (s =? "").

Definition truthy_number (n : Number) : bool :=
  match n with
  | Num z => negb (z =? 0)%Z
  | NaN => false
  | Infinity _ => true
  end.

(** Truthiness of a value that may be [undefined] ([None]). *)
Definition truthy {A : Type} (t : A -> bool) (o : option A) : bool :=
  match o with
  | Some a => t a
  | None => false
  end.

End JS.

(** The global function [parseInt], always called with radix 10, is part
    of the platform; [JS.parseInt] is the one of ECMAScript. *)
Class Globals : Type := {
  parseInt : string -> JS.Number
}.

#[export] Instance ecmaScript : Globals := {
  parseInt := JS.parseInt
}.

(** ** Object ids

    A MongoDB [ObjectId] is a 12-byte value, compared bytewise: the model
    is the 96-bit number those bytes spell in big-endian order. *)

Module ObjectId.

Definition t : Type := N.

Definition valid (id : t) : Prop := (id < 2 ^ 96)%N.

Definition hexChar (d : N) : ascii :=
  nth (N.to_nat d) (list_ascii_of_string "0123456789abcdef") "0"%char.

(** The [w] least significant hexadecimal digits of [n], most
    significant first. *)
Fixpoint toHex (w : nat) (n : N) : list ascii :=
  match w with
  | O => []
  | S w' => toHex w' (n / 16) ++ [hexChar (n mod 16)]
  end.

(** [id.toString()]: 24 lower-case hexadecimal digits. *)
Definition toHexString (id : t) : string :=
  string_of_list_ascii (toHex 24 id).

Definition hexValue (c : ascii) : option N :=
  let n := N_of_ascii c in
  if ((48 <=? n) && (n <=? 57))%N then Some (n - 48)%N
  else if ((97 <=? n) && (n <=? 102))%N then Some (n - 87)%N
  else if ((65 <=? n) && (n <=? 70))%N then Some (n - 55)%N
  else None.

Fixpoint parseHex (acc : N) (l : list ascii) : option N :=
  match l with
  | [] => Some acc
  | c :: l' =>
      match hexValue c with
      | Some d => parseHex (16 * acc + d) l'
      | None => None
      end
  end.

Definition isAscii (c : ascii) : bool := (N_of_ascii c <? 128)%N.

(** The number twelve bytes spell, most significant first. *)
Definition fromBytes (l : list ascii) : N :=
  fold_left (fun acc c => 256 * acc + N_of_ascii c)%N l 0%N.

(** Mongoose casts the operand of a condition on [_id], and the id given
    to [findById], with the [ObjectId] constructor (bson 4): a string of
    12 characters that make 12 bytes is the id of those bytes, a string of
    24 hexadecimal digits the id they spell, anything else a cast
    error. *)
Definition cast (s : string) : option t :=
  let l := list_ascii_of_string s in
  if (String.length s =? 12)%nat
  then if forallb isAscii l then Some (fromBytes l) else None
  else if (String.length s =? 24)%nat then parseHex 0 l
  else None.

End ObjectId.

(** ** The cursor codec ([utils/pagination])

    The handlers import [encodeCursor] and [decodeCursor]; they are used
    through this interface. *)

Class CursorCodec : Type := {
  encodeCursor : string -> string;
  decodeCursor : string -> Exc string
}.

Module Base64.

Definition alphabet : list ascii :=
  list_ascii_of_string
    "ABCDEFGHIJKLMNOPQRSTUVWXYZabcdefghijklmnopqrstuvwxyz0123456789+/".

Definition pad : ascii := "="%char.

(** The character of a 6-bit group. *)
Definition char (s : N) : ascii := nth (N.to_nat s) alphabet "A"%char.

(** The 6-bit group of a character of the alphabet. *)
Definition value (c : ascii) : option N :=
  let n := N_of_ascii c in
  if ((65 <=? n) && (n <=? 90))%N then Some (n - 65)%N
  else if ((97 <=? n) && (n <=? 122))%N then Some (n - 71)%N
  else if ((48 <=? n) && (n <=? 57))%N then Some (n + 4)%N
  else if (n =? 43)%N then Some 62%N
  else if (n =? 47)%N then Some 63%N
  else None.

Definition byte (n : N) : ascii := ascii_of_N n.

(** Three bytes become four characters; a last group of one or two bytes
    is padded with [=]. *)
Fixpoint encode (l : list ascii) : list ascii :=
  match l with
  | a :: b :: c :: rest =>
      let '(a, b, c) := (N_of_ascii a, N_of_ascii b, N_of_ascii c) in
      char (a / 4)
      :: char ((a mod 4) * 16 + b / 16)
      :: char ((b mod 16) * 4 + c / 64)
      :: char (c mod 64)
      :: encode rest
  | [a; b] =>
      let '(a, b) := (N_of_ascii a, N_of_ascii b) in
      [char (a / 4); char ((a mod 4) * 16 + b / 16);
       char ((b mod 16) * 4); pad]
  | [a] =>
      let a := N_of_ascii a in
      [char (a / 4); char ((a mod 4) * 16); pad; pad]
  | [] => []
  end%N.

(** Strict decoding: groups of four characters of the alphabet, padding
    only in the last group and only over zero bits. *)
Fixpoint decode (l : list ascii) : option (list ascii) :=
  match l with
  | [] => Some []
  | c1 :: c2 :: c3 :: c4 :: rest =>
      match value c1, value c2 with
      | Some s1, Some s2 =>
          match value c3, value c4 with
          | Some s3, Some s4 =>
              match decode rest with
              | Some bytes =>
                  Some (byte (s1 * 4 + s2 / 16)
                        :: byte ((s2 mod 16) * 16 + s3 / 4)
                        :: byte ((s3 mod 4) * 64 + s4)
                        :: bytes)
              | None => None
              end
          | Some s3, None =>
              match rest with
              | [] =>
                  if Ascii.eqb c4 pad && (s3 mod 4 =? 0)
                  then Some [byte (s1 * 4 + s2 / 16);
                             byte ((s2 mod 16) * 16 + s3 / 4)]
                  else None
              | _ :: _ => None
              end
          | None, _ =>
              match rest with
              | [] =>
                  if Ascii.eqb c3 pad && Ascii.eqb c4 pad
                     && (s2 mod 16 =? 0)
                  then Some [byte (s1 * 4 + s2 / 16)]
                  else None
              | _ :: _ => None
              end
          end
      | _, _ => None
      end
  | _ => None
  end%N.

End Base64.

(** Modelled from the spec: [utils/pagination] is not among the sources.
    A cursor is the base64 encoding of the key's string form (section 4.1);
    [decodeCursor] fails with [InvalidCursor] unless its input is a
    well-formed encoding of an ordering key (wrong alphabet, wrong
    structure and the empty string all fail). *)
Module Pagination.

Definition isLowerHex (c : ascii) : bool :=
  let n := N_of_ascii c in
  ((48 <=? n) && (n <=? 57) || (97 <=? n) && (n <=? 102))%N.

(** The string form of an ordering key: 24 lower-case hexadecimal
    digits. *)
Definition isKey (k : string) : bool :=
  (String.length k =? 24)%nat && forallb isLowerHex (list_ascii_of_string k).

Definition encodeCursor (k : string) : string :=
  string_of_list_ascii (Base64.encode (list_ascii_of_string k)).

Definition decodeCursor (cursor : string) : Exc string :=
  match Base64.decode (list_ascii_of_string cursor) with
  | Some bytes =>
      let k := string_of_list_ascii bytes in
      if isKey k then Ok k else Throw InvalidCursor
  | None => Throw InvalidCursor
  end.

End Pagination.

#[export] Instance base64Codec : CursorCodec := {
  encodeCursor := Pagination.encodeCursor;
  decodeCursor := Pagination.decodeCursor
}.

(** ** Regular expressions

    [new RegExp(source, flags)] throws a [SyntaxError] on a pattern that
    does not compile; a compiled expression is tested against a string.
    The engine is an interface of the platform. *)

Record RegExp : Type := { source : string; flags : string }.

Class RegExpEngine : Type := {
  regexCompiles : string -> string -> bool;
  regexTest : RegExp -> string -> bool
}.

Definition newRegExp {engine : RegExpEngine} (src fl : string) : Exc RegExp :=
  if regexCompiles src fl
  then Ok {| source := src; flags := fl |}
  else Throw SyntaxError.

(** ** JavaScript values, documents, filters and queries *)

(** The values of a request body and of the fields of a document;
    [undefined] is [None] where a value may be missing. *)
Inductive Value : Type :=
| VNull
| VBool (b : bool)
| VNum (z : Z)
| VInfinity (negative : bool)
| VStr (s : string)
| VId (id : ObjectId.t)
| VArr (items : list Value)
| VObj (fields : list (string * Value)).

(** An object, its fields in insertion order. *)
Definition Obj (V : Type) : Type := list (string * V).

Fixpoint Value_eqb (v w : Value) {struct v} : bool :=
  match v, w with
  | VNull, VNull => true
  | VBool a, VBool b => Bool.eqb a b
  | VNum a, VNum b => (a =? b)%Z
  | VInfinity a, VInfinity b => Bool.eqb a b
  | VStr a, VStr b => (a =? b)%string
  | VId a, VId b => (a =? b)%N
  | VArr l, VArr m =>
      (fix all2 (l m : list Value) {struct l} : bool :=
         match l, m with
         | [], [] => true
         | x :: l', y :: m' => Value_eqb x y && all2 l' m'
         | _, _ => false
         end) l m
  | VObj l, VObj m =>
      (fix all2 (l m : list (string * Value)) {struct l} : bool :=
         match l, m with
         | [], [] => true
         | (j, x) :: l', (k, y) :: m' =>
             (j =? k)%string && Value_eqb x y && all2 l' m'
         | _, _ => false
         end) l m
  | _, _ => false
  end.

(** Truthiness of a value: [null], [false], [0] and [""] are falsy, as is
    [undefined]. *)
Definition truthy_value (v : Value) : bool :=
  match v with
  | VNull => false
  | VBool b => b
  | VNum z => negb (z =? 0)%Z
  | VStr s => negb (s =? "")
  | VInfinity _ | VId _ | VArr _ | VObj _ => true
  end.

Definition truthy (o : option Value) : bool := JS.truthy truthy_value o.

Fixpoint lookup {V : Type} (k : string) (o : Obj V) : option V :=
  match o with
  | [] => None
  | (k', v) :: o' => if (k' =? k)%string then Some v else lookup k o'
  end.

Fixpoint obj_set {V : Type} (o : Obj V) (k : string) (v : V) : Obj V :=
  match o with
  | [] => [(k, v)]
  | (k', v') :: o' =>
      if (k' =? k)%string then (k, v) :: o' else (k', v') :: obj_set o' k v
  end.

Definition obj_keys {V : Type} (o : Obj V) : list string := map fst o.

Definition obj_merge {V : Type} (target src : Obj V) : Obj V :=
  fold_left (fun t kv => obj_set t (fst kv) (snd kv)) src target.

(** [Object.assign(target, ...sources)]; a [null] or [undefined] source
    ([None]) is skipped. *)
Definition Object_assign {V : Type} (target : Obj V)
  (sources : list (option (Obj V))) : Obj V :=
  fold_left (fun t src =>
               match src with
               | Some fields => obj_merge t fields
               | None => t
               end) sources target.

(** A document: its [_id] and its other fields. *)
Record Doc : Type := {
  doc_id : ObjectId.t;
  doc_fields : Obj Value
}.

Definition doc_field (d : Doc) (f : string) : option Value :=
  if (f =? "_id")%string then Some (VId (doc_id d))
  else lookup f (doc_fields d).

(** [d.id]: the string form of [_id]. *)
Definition id_of (d : Doc) : string := ObjectId.toHexString (doc_id d).

(** The right-hand side of a field of a filter object: a plain value
    (equality), [{ $lt: k }], [{ $gt: k }] or a regular expression. *)
Inductive Cond : Type :=
| CEq (v : Value)
| CLt (k : string)
| CGt (k : string)
| CRegExp (r : RegExp).

Definition FilterObj : Type := Obj Cond.

Inductive Filter : Type :=
| FObj (o : FilterObj)
| FAnd (os : list FilterObj).

(** An update document: [{ $set: fields }] or [{ $push: { field: v } }]. *)
Inductive Update : Type :=
| USet (fields : Obj Value)
| UPush (field : string) (v : Value).

Inductive SortDir : Type :=
| Asc    (* { _id: 1 } *)
| Desc.  (* { _id: -1 } *)

(** The options of a [populate]: the path, the model and the selection
    when given, and the [populate] nested in it. *)
Inductive Populate : Type :=
| Path (path : string) (model select : option string)
       (populate : option Populate).

Record Query : Type := {
  q_filter : Filter;
  q_limit : option nat;
  q_sort : option SortDir;
  q_populate : list Populate
}.

(** The query builder: each call returns the query with one option set. *)
Module Mongoose.

Definition find (f : Filter) : Query :=
  {| q_filter := f; q_limit := None; q_sort := None; q_populate := [] |}.

Definition limit (n : nat) (q : Query) : Query :=
  {| q_filter := q_filter q; q_limit := Some n;
     q_sort := q_sort q; q_populate := q_populate q |}.

Definition sort (d : SortDir) (q : Query) : Query :=
  {| q_filter := q_filter q; q_limit := q_limit q;
     q_sort := Some d; q_populate := q_populate q |}.

Definition populate (options : Populate) (q : Query) : Query :=
  {| q_filter := q_filter q; q_limit := q_limit q;
     q_sort := q_sort q; q_populate := (q_populate q ++ [options])%list |}.

End Mongoose.

(** [new mongoose.Types.ObjectId(v)] is part of the platform: it answers
    an object id (a new one when [v] is [undefined]) or throws. *)
Class Bson : Type := {
  newObjectId : option Value -> Exc ObjectId.t
}.

(** A model is the handle on one collection of the record store, whose
    state has type [S].  Reads answer a result, writes the next state;
    every call may throw. *)
Record Model (S : Type) : Type := {
  exec : S -> Query -> Exc (list Doc);
  countDocuments : S -> FilterObj -> Exc nat;
  findById : S -> string -> list Populate -> Exc (option Doc);
  updateOne : S -> FilterObj -> Update -> Exc S;
  findByIdAndUpdate : S -> Value -> Update -> Exc S;
  save : S -> Doc -> Exc S
}.
Arguments exec {S} m s q.
Arguments countDocuments {S} m s f.
Arguments findById {S} m s id populate.
Arguments updateOne {S} m s f u.
Arguments findByIdAndUpdate {S} m s id u.
Arguments save {S} m s d.

(** ** Collections held in memory *)

Section Collection.

Context {engine : RegExpEngine}.

Definition matches_cond (d : Doc) (field : string) (c : Cond) : bool :=
  match c with
  | CEq v =>
      match doc_field d field with
      | Some w => Value_eqb v w
      | None => false
      end
  | CLt k =>
      match ObjectId.cast k, doc_field d field with
      | Some x, Some (VId y) => (y <? x)%N
      | _, _ => false
      end
  | CGt k =>
      match ObjectId.cast k, doc_field d field with
      | Some x, Some (VId y) => (x <? y)%N
      | _, _ => false
      end
  | CRegExp r =>
      match doc_field d field with
      | Some (VStr s) => regexTest r s
      | _ => false
      end
  end.

Definition matches_obj (o : FilterObj) (d : Doc) : bool :=
  forallb (fun kc => matches_cond d (fst kc) (snd kc)) o.

Definition matches (f : Filter) (d : Doc) : bool :=
  match f with
  | FObj o => matches_obj o d
  | FAnd os => forallb (fun o => matches_obj o d) os
  end.

(** Operands of [$lt] and [$gt] are cast to object ids before the query
    is sent. *)
Definition castable_cond (c : Cond) : bool :=
  match c with
  | CLt k | CGt k =>
      match ObjectId.cast k with Some _ => true | None => false end
  | CEq _ | CRegExp _ => true
  end.

Definition castable_obj (o : FilterObj) : bool :=
  forallb (fun kc => castable_cond (snd kc)) o.

Definition castable (f : Filter) : bool :=
  match f with
  | FObj o => castable_obj o
  | FAnd os => forallb castable_obj os
  end.

(** The cast of the id given to [findByIdAndUpdate]: an object id is
    kept and a string is cast; other values are taken not to cast. *)
Definition cast_id (v : Value) : option ObjectId.t :=
  match v with
  | VStr s => ObjectId.cast s
  | VId k => Some k
  | _ => None
  end.

(** Insertion into a list sorted by [_id], descending or ascending. *)
Fixpoint insert_desc (x : Doc) (l : list Doc) : list Doc :=
  match l with
  | [] => [x]
  | y :: l' =>
      if (doc_id y <=? doc_id x)%N then x :: l else y :: insert_desc x l'
  end.

Fixpoint insert_asc (x : Doc) (l : list Doc) : list Doc :=
  match l with
  | [] => [x]
  | y :: l' =>
      if (doc_id x <=? doc_id y)%N then x :: l else y :: insert_asc x l'
  end.

Definition sort_by (d : SortDir) (l : list Doc) : list Doc :=
  match d with
  | Desc => fold_right insert_desc [] l
  | Asc => fold_right insert_asc [] l
  end.

(** Running a query: select, sort when a sort was asked for (otherwise
    the documents come in the collection's natural order), then limit.
    The documents are answered as they are stored: the references that
    [populate] names are not resolved, so a document answered stands for
    the one the store sends with the same [_id] and the same fields
    outside the populated paths. *)
Definition run (docs : list Doc) (q : Query) : list Doc :=
  let found := filter (matches (q_filter q)) docs in
  let ordered :=
    match q_sort q with
    | Some d => sort_by d found
    | None => found
    end in
  match q_limit q with
  | Some n => firstn n ordered
  | None => ordered
  end.

Definition set_fields (fields : Obj Value) (d : Doc) : Doc :=
  {| doc_id := doc_id d; doc_fields := obj_merge (doc_fields d) fields |}.

(** [$set] writes the given fields; [$push] appends to an array field,
    creating it when missing, and fails on a field that is no array. *)
Definition apply_update (u : Update) (d : Doc) : Exc Doc :=
  match u with
  | USet fields => Ok (set_fields fields d)
  | UPush f v =>
      match lookup f (doc_fields d) with
      | Some (VArr l) =>
          Ok {| doc_id := doc_id d;
                doc_fields := obj_set (doc_fields d) f (VArr (l ++ [v])) |}
      | None =>
          Ok {| doc_id := doc_id d;
                doc_fields := obj_set (doc_fields d) f (VArr [v]) |}
      | Some _ => Throw StoreQueryFailed
      end
  end.

(** The update reaches the first document selected, if any. *)
Fixpoint update_first (p : Doc -> bool) (u : Update) (docs : list Doc)
  : Exc (list Doc) :=
  match docs with
  | [] => Ok []
  | d :: rest =>
      if p d
      then (d' <- apply_update u d ;; Ok (d' :: rest))%exc
      else (rest' <- update_first p u rest ;; Ok (d :: rest'))%exc
  end.

(** The model of a collection kept in the component of the state that
    [get] reads and [put] writes, with the documents in natural order;
    [validates] is the schema's validation on [save].  [findById], like
    [exec], answers the stored document whatever is to be populated. *)
Definition collection {S : Type} (get : S -> list Doc)
  (put : list Doc -> S -> S) (validates : Doc -> bool) : Model S := {|
  exec := fun s q =>
    if castable (q_filter q) then Ok (run (get s) q) else Throw CastError;
  countDocuments := fun s f =>
    if castable_obj f
    then Ok (List.length (filter (matches_obj f) (get s)))
    else Throw CastError;
  findById := fun s id _ =>
    match ObjectId.cast id with
    | Some k => Ok (List.find (fun d => (doc_id d =? k)%N) (get s))
    | None => Throw CastError
    end;
  updateOne := fun s f u =>
    if castable_obj f
    then (docs <- update_first (matches_obj f) u (get s) ;;
          Ok (put docs s))%exc
    else Throw CastError;
  findByIdAndUpdate := fun s id u =>
    match cast_id id with
    | Some k =>
        (docs <- update_first (fun d => (doc_id d =? k)%N) u (get s) ;;
         Ok (put docs s))%exc
    | None => Throw CastError
    end;
  save := fun s d =>
    if validates d && negb (existsb (fun x => (doc_id x =? doc_id d)%N) (get s))
    then Ok (put (get s ++ [d])%list s)
    else Throw ValidationError
|}.

(** One collection on its own. *)
Definition memory : Model (list Doc) :=
  collection (fun docs => docs) (fun docs _ => docs) (fun _ => true).

(** A store that cannot be reached. *)
Definition unreachable {S : Type} : Model S := {|
  exec := fun _ _ => Throw StoreQueryFailed;
  countDocuments := fun _ _ => Throw StoreQueryFailed;
  findById := fun _ _ _ => Throw StoreQueryFailed;
  updateOne := fun _ _ _ => Throw StoreQueryFailed;
  findByIdAndUpdate := fun _ _ _ => Throw StoreQueryFailed;
  save := fun _ _ => Throw StoreQueryFailed
|}.

End Collection.

(** The database of the application: its three collections. *)
Record Db : Type := {
  orders : list Doc;
  products : list Doc;
  batches : list Doc
}.

Section Models.

Context {engine : RegExpEngine}.

(** Validation of the schemas, which are not among the sources. *)
Variable valid_order valid_product : Doc -> bool.

Definition OrderModel : Model Db :=
  collection orders
    (fun docs db => {| orders := docs; products := products db;
                       batches := batches db |})
    valid_order.

Definition ProductModel : Model Db :=
  collection products
    (fun docs db => {| orders := orders db; products := docs;
                       batches := batches db |})
    valid_product.

Definition BatchModel : Model Db :=
  collection batches
    (fun docs db => {| orders := orders db; products := products db;
                       batches := docs |})
    (fun _ => true).

End Models.

(** ** Requests and responses *)

(** [req.query] of a list request: both parameters are optional strings. *)
Record Request : Type := {
  search : option string;
  afterCursor : option string
}.

(** [req.params.id] and [req.body] of the other requests. *)
Record ItemRequest : Type := {
  params_id : string;
  body : Obj Value
}.

Record Edge : Type := { cursor : string; node : Doc }.

Record PageInfo : Type := {
  endCursor : option string;
  hasNextPage : bool;
  startCursor : option string
}.

Record Page : Type := {
  pageInfo : PageInfo;
  edges : list Edge;
  totalCount : nat
}.

(** What a handler answers: [res.send(body)] (status 200),
    [res.status(code).send(body)] or [res.sendStatus(code)]. *)
Inductive Response (B : Type) : Type :=
| Send (code : nat) (body : B)
| SendStatus (code : nat).
Arguments Send {B} code body.
Arguments SendStatus {B} code.

(** [x ? { x } : null] *)
Definition pick (name : string) (x : option Value) : option (Obj Value) :=
  match x with
  | Some v => if truthy_value v then Some [(name, v)] else None
  | None => None
  end.

(** Every field of [names] is present in the body with a truthy value. *)
Definition all_truthy (body : Obj Value) (names : list string) : bool :=
  forallb (fun n => truthy (lookup n body)) names.

(** Some field of [names] is present in the body with a truthy value. *)
Definition some_truthy (body : Obj Value) (names : list string) : bool :=
  existsb (fun n => truthy (lookup n body)) names.

(** The fields of [names] that the body gives a truthy value, with that
    value, in the order of [names]. *)
Definition truthy_fields (body : Obj Value) (names : list string)
  : Obj Value :=
  flat_map (fun n => match pick n (lookup n body) with
                     | Some o => o
                     | None => []
                     end) names.

(** ** The orders router *)

Module Orders.
Section Handlers.

Context {globals : Globals} {codec : CursorCodec} {bson : Bson} {S : Type}.
Variable Order Batch : Model S.

Definition DEFAULT_PAGE_SIZE : nat := 30.

Definition searchQuery (pSearch : option string) : option JS.Number :=
  match pSearch with
  | Some s => if JS.truthy_string s then Some (parseInt s) else None
  | None => None
  end.

Definition searchFilter (pSearch : option string) : FilterObj :=
  Object_assign
    [("archived", CEq (VBool false))]
    [Some (match searchQuery pSearch with
           | Some (JS.Num z) =>
               if JS.truthy_number (JS.Num z)
               then [("batch", CEq (VNum z))]
               else []
           | Some (JS.Infinity negative) =>
               [("batch", CEq (VInfinity negative))]
           | Some JS.NaN | None => []
           end)].

Definition cursorFilters (afterCursor : option string) : Exc FilterObj :=
  match afterCursor with
  | Some c =>
      if JS.truthy_string c
      then (k <- decodeCursor c ;; Ok [("_id", CLt k)])%exc
      else Ok []
  | None => Ok []
  end.

Definition query (cursorFilters searchFilter : FilterObj) : Query :=
  Mongoose.sort Desc
    (Mongoose.populate
       (Path "batch" (Some "Batch") (Some "_id number") None)
       (Mongoose.populate
          (Path "items" None None
             (Some (Path "item" (Some "Product") (Some "-_id") None)))
          (Mongoose.limit (DEFAULT_PAGE_SIZE + 1)
             (Mongoose.find (FAnd [cursorFilters; searchFilter]))))).

(** Indexes orders: [router.get "/"]. *)
Definition index (s : S) (req : Request) : Response Page :=
  try_catch
    (let pSearch := search req in
     let afterCursor := afterCursor req in
     let searchFilter := searchFilter pSearch in
     cursorFilters <- cursorFilters afterCursor ;;
     await items <- exec Order s (query cursorFilters searchFilter) ;;
     let hasNextPage := (DEFAULT_PAGE_SIZE <? List.length items)%nat in
     let items :=
       if hasNextPage then firstn DEFAULT_PAGE_SIZE items else items in
     let edges :=
       map (fun r => {| cursor := encodeCursor (id_of r); node := r |})
           items in
     let pageInfo :=
       {| endCursor :=
            if (0 <? List.length edges)%nat
            then option_map cursor (nth_error edges (List.length edges - 1))
            else None;
          hasNextPage := hasNextPage;
          startCursor :=
            if (0 <? List.length edges)%nat
            then option_map cursor (nth_error edges 0)
            else None |} in
     await total <- countDocuments Order s searchFilter ;;
     Ok (Send 200 {| pageInfo := pageInfo; edges := edges;
                     totalCount := total |}))%exc
    (fun err => SendStatus 422).

(** [item.item = new mongoose.Types.ObjectId(item.item)] on one element
    of [items]: the element has to be an object for the assignment to
    take; on [null] the property cannot be read, on another primitive it
    cannot be written; a property written on an array is not an
    element of it. *)
Definition convertItem (item : Value) : Exc Value :=
  match item with
  | VObj fields =>
      (oid <- newObjectId (lookup "item" fields) ;;
       Ok (VObj (obj_set fields "item" (VId oid))))%exc
  | VArr elements =>
      (oid <- newObjectId None ;; Ok (VArr elements))%exc
  | VNull => Throw TypeError
  | VBool _ | VNum _ | VInfinity _ | VStr _ | VId _ =>
      (oid <- newObjectId None ;; Throw TypeError)%exc
  end.

(** [items.forEach(...)], left to right, stopping at the first throw;
    only an array has [forEach]. *)
Fixpoint convertItems (items : list Value) : Exc (list Value) :=
  match items with
  | [] => Ok []
  | item :: rest =>
      (item' <- convertItem item ;;
       rest' <- convertItems rest ;;
       Ok (item' :: rest'))%exc
  end.

Definition forEachItem (items : Value) : Exc Value :=
  match items with
  | VArr l => (l' <- convertItems l ;; Ok (VArr l'))%exc
  | _ => Throw TypeError
  end.

(** Add new order: [router.post "/"].  [fresh] is the [_id] the new
    document gets and [now] the value of [new Date()].  The answer is
    [None] when no response is ever sent: the update of the batch runs
    in the callback of [save], outside the [try]. *)
Definition add (fresh : ObjectId.t) (now : Z) (s : S) (req : ItemRequest)
  : option (Response string) * S :=
  try_catch
    (let client := lookup "client" (body req) in
     let batch := lookup "batch" (body req) in
     let deliverAt := lookup "deliverAt" (body req) in
     let items := lookup "items" (body req) in
     match client, batch, deliverAt, items with
     | Some client, Some batch, Some deliverAt, Some items =>
         if negb (truthy_value client) || negb (truthy_value batch)
            || negb (truthy_value deliverAt) || negb (truthy_value items)
         then Ok (Some (SendStatus 400), s)
         else
           items <- forEachItem items ;;
           let newOrder :=
             {| doc_id := fresh;
                doc_fields :=
                  [("client", client); ("deliverAt", deliverAt);
                   ("items", items); ("batch", batch);
                   ("createdAt", VNum now); ("archived", VBool false)] |} in
           Ok (match save Order s newOrder with
               | Throw err => (Some (SendStatus 500), s)
               | Ok s1 =>
                   match findByIdAndUpdate Batch s1 batch
                           (UPush "orders" (VStr (id_of newOrder))) with
                   | Ok s2 => (Some (Send 201 (id_of newOrder)), s2)
                   | Throw _ => (None, s1)
                   end
               end)
     | _, _, _, _ => Ok (Some (SendStatus 400), s)
     end)%exc
    (fun err => (Some (SendStatus 422), s)).

(** Gets an order: [router.get "/:id"]. *)
Definition get (s : S) (req : ItemRequest) : Response (option Doc) :=
  try_catch
    (let id := params_id req in
     await order <-
       findById Order s id
         [Path "items" None None
            (Some (Path "item" (Some "Product") None None));
          Path "batch" (Some "Batch") None None] ;;
     Ok (Send 200 order))%exc
    (fun err => SendStatus 422).

(** Updates an order: [router.put "/:id"]. *)
Definition update (s : S) (req : ItemRequest) : Response unit * S :=
  try_catch
    (let id := params_id req in
     let client := lookup "client" (body req) in
     let batch := lookup "batch" (body req) in
     let deliverAt := lookup "deliverAt" (body req) in
     let items := lookup "items" (body req) in
     let set :=
       Object_assign []
         [pick "client" client; pick "batch" batch;
          pick "deliverAt" deliverAt; pick "items" items] in
     if (0 <? List.length set)%nat
     then
       oid <- newObjectId (Some (VStr id)) ;;
       await s' <- updateOne Order s [("_id", CEq (VId oid))] (USet set) ;;
       Ok (SendStatus 200, s')
     else Ok (SendStatus 400, s))%exc
    (fun err => (SendStatus 422, s)).

(** Archives an order: [router.delete "/:id"]. *)
Definition archive (s : S) (req : ItemRequest) : Response unit * S :=
  try_catch
    (let id := params_id req in
     oid <- newObjectId (Some (VStr id)) ;;
     await s' <- updateOne Order s [("_id", CEq (VId oid))]
                   (USet [("archived", VBool true)]) ;;
     Ok (SendStatus 200, s'))%exc
    (fun err => (SendStatus 422, s)).

End Handlers.
End Orders.

(** ** The products router *)

Module Products.
Section Handlers.

Context {codec : CursorCodec} {engine : RegExpEngine} {bson : Bson}
        {S : Type}.
Variable Product : Model S.

Definition DEFAULT_PAGE_SIZE : nat := 29.

Definition searchQuery (pSearch : option string) : option string :=
  match pSearch with
  | Some s => if JS.truthy_string s then Some s else None
  | None => None
  end.

Definition searchFilter (pSearch : option string) : Exc FilterObj :=
  (src <-
     match searchQuery pSearch with
     | Some s =>
         if JS.truthy_string s
         then (r <- newRegExp s "i" ;; Ok (Some [("description", CRegExp r)]))
         else Ok None
     | None => Ok None
     end ;;
   Ok (Object_assign [("archived", CEq (VBool false))] [src]))%exc.

Definition cursorFilters (afterCursor : option string) : Exc FilterObj :=
  match afterCursor with
  | Some c =>
      if JS.truthy_string c
      then (k <- decodeCursor c ;; Ok [("_id", CGt k)])%exc
      else Ok []
  | None => Ok []
  end.

Definition query (cursorFilters searchFilter : FilterObj) : Query :=
  Mongoose.limit (DEFAULT_PAGE_SIZE + 1)
    (Mongoose.find (FAnd [cursorFilters; searchFilter])).

(** Indexes products: [router.get "/"]. *)
Definition index (s : S) (req : Request) : Response Page :=
  try_catch
    (let pSearch := search req in
     let afterCursor := afterCursor req in
     searchFilter <- searchFilter pSearch ;;
     cursorFilters <- cursorFilters afterCursor ;;
     await items <- exec Product s (query cursorFilters searchFilter) ;;
     let hasNextPage := (DEFAULT_PAGE_SIZE <? List.length items)%nat in
     let items :=
       if hasNextPage then firstn DEFAULT_PAGE_SIZE items else items in
     let edges :=
       map (fun r => {| cursor := encodeCursor (id_of r); node := r |})
           items in
     let pageInfo :=
       {| endCursor :=
            if (0 <? List.length edges)%nat
            then option_map cursor (nth_error edges (List.length edges - 1))
            else None;
          hasNextPage := hasNextPage;
          startCursor :=
            if (0 <? List.length edges)%nat
            then option_map cursor (nth_error edges 0)
            else None |} in
     await total <- countDocuments Product s searchFilter ;;
     Ok (Send 200 {| pageInfo := pageInfo; edges := edges;
                     totalCount := total |}))%exc
    (fun err => SendStatus 422).

(** Add new product: [router.post "/"]; [fresh] is the [_id] of the new
    document. *)
Definition add (fresh : ObjectId.t) (s : S) (req : ItemRequest)
  : Response string * S :=
  try_catch
    (let description := lookup "description" (body req) in
     let defaultMeasurementUnit :=
       lookup "defaultMeasurementUnit" (body req) in
     let conversions := lookup "conversions" (body req) in
     match description, defaultMeasurementUnit, conversions with
     | Some description, Some defaultMeasurementUnit, Some conversions =>
         if negb (truthy_value description)
            || negb (truthy_value defaultMeasurementUnit)
            || negb (truthy_value conversions)
         then Ok (SendStatus 400, s)
         else
           let newProduct :=
             {| doc_id := fresh;
                doc_fields :=
                  [("description", description);
                   ("defaultMeasurementUnit", defaultMeasurementUnit);
                   ("conversions", conversions);
                   ("archived", VBool false)] |} in
           Ok (match save Product s newProduct with
               | Throw err => (SendStatus 500, s)
               | Ok s' => (Send 201 (id_of newProduct), s')
               end)
     | _, _, _ => Ok (SendStatus 400, s)
     end)%exc
    (fun err => (SendStatus 422, s)).

(** Updates a product: [router.put "/:id"]. *)
Definition update (s : S) (req : ItemRequest) : Response unit * S :=
  try_catch
    (let id := params_id req in
     let description := lookup "description" (body req) in
     let defaultMeasurementUnit :=
       lookup "defaultMeasurementUnit" (body req) in
     let conversions := lookup "conversions" (body req) in
     let set :=
       Object_assign []
         [pick "description" description;
          pick "defaultMeasurementUnit" defaultMeasurementUnit;
          pick "conversions" conversions] in
     if (0 <? List.length set)%nat
     then
       oid <- newObjectId (Some (VStr id)) ;;
       await s' <- updateOne Product s [("_id", CEq (VId oid))] (USet set) ;;
       Ok (SendStatus 200, s')
     else Ok (SendStatus 400, s))%exc
    (fun err => (SendStatus 422, s)).

(** Gets a product: [router.get "/:id"]. *)
Definition get (s : S) (req : ItemRequest) : Response (option Doc) :=
  try_catch
    (let id := params_id req in
     await product <- findById Product s id [] ;;
     Ok (Send 200 product))%exc
    (fun err => SendStatus 422).

(** Archives a product: [router.delete "/:id"]. *)
Definition archive (s : S) (req : ItemRequest) : Response unit * S :=
  try_catch
    (let id := params_id req in
     oid <- newObjectId (Some (VStr id)) ;;
     await s' <- updateOne Product s [("_id", CEq (VId oid))]
                   (USet [("archived", VBool true)]) ;;
     Ok (SendStatus 200, s'))%exc
    (fun err => (SendStatus 422, s)).

End Handlers.
End Products.

(** ** Walking the pages

    The client's side of the protocol: ask for the first page without a
    cursor, then pass each page's [endCursor] back as [afterCursor] for as
    long as the page says there is a next one.  The walk stops on the first
    page without a next one; an error answer, or a page that announces a
    next page without giving a cursor, ends it with [None], as does running
    out of [fuel] (a bound on the number of pages fetched). *)

Section Walk.

Variable index : Request -> Response Page.
Variable term : option string.

Fixpoint walk (fuel : nat) (after : option string) : option (list Page) :=
  match fuel with
  | O => None
  | S fuel' =>
      match index {| search := term; afterCursor := after |} with
      | Send _ p =>
          if hasNextPage (pageInfo p)
          then match endCursor (pageInfo p) with
               | Some c => option_map (cons p) (walk fuel' (Some c))
               | None => None
               end
          else Some [p]
      | SendStatus _ => None
      end
  end.

(** The records seen along a walk, in the order in which they are seen. *)
Definition visited (pages : list Page) : list Doc :=
  flat_map (fun p => map node (edges p)) pages.

End Walk.

(** The shape both list handlers give to a page, from the records the
    store returned and the count. *)
Definition page_of {codec : CursorCodec} (pageSize : nat) (items : list Doc)
  (total : nat) : Page :=
  let more := (pageSize <? List.length items)%nat in
  let kept := if more then firstn pageSize items else items in
  let es :=
    map (fun r => {| cursor := encodeCursor (id_of r); node := r |}) kept in
  {| pageInfo :=
       {| endCursor :=
            if (0 <? List.length es)%nat
            then option_map cursor (nth_error es (List.length es - 1))
            else None;
          hasNextPage := more;
          startCursor :=
            if (0 <? List.length es)%nat
            then option_map cursor (nth_error es 0)
            else None |};
     edges := es;
     totalCount := total |}.

Open Scope list_scope.

(** ** Orderings of a list of documents, and the laws of a codec *)

Definition descending (l : list Doc) : Prop :=
  StronglySorted (fun a b => (doc_id b < doc_id a)%N) l.

Definition ascending (l : list Doc) : Prop :=
  StronglySorted (fun a b => (doc_id a < doc_id b)%N) l.

Definition weakly_descending (l : list Doc) : Prop :=
  StronglySorted (fun a b => (doc_id b <= doc_id a)%N) l.

Definition keys (l : list Doc) : list N := map doc_id l.

(** The ids of a collection are object ids, each used once. *)
Definition well_keyed (docs : list Doc) : Prop :=
  NoDup (keys docs) /\ Forall ObjectId.valid (keys docs).

(** What the handlers need of the codec to walk the pages: the cursor of
    a record's key decodes to that key, and is not the empty string. *)
Record CodecLaws (C : CursorCodec) : Prop := {
  law_roundtrip : forall id : ObjectId.t,
    decodeCursor (encodeCursor (ObjectId.toHexString id))
    = Ok (ObjectId.toHexString id);
  law_truthy : forall id : ObjectId.t,
    JS.truthy_string (encodeCursor (ObjectId.toHexString id)) = true
}.

(** The listing an orders walk goes through, and the count it reports. *)
Definition orders_listing {globals : Globals} {engine : RegExpEngine}
  (docs : list Doc)
  (term : option string) : list Doc :=
  sort_by Desc (filter (matches_obj (Orders.searchFilter term)) docs).

Definition orders_total {globals : Globals} {engine : RegExpEngine}
  (docs : list Doc)
  (term : option string) : nat :=
  List.length (filter (matches_obj (Orders.searchFilter term)) docs).

(** The field [archived] of a document. *)
Definition archived (d : Doc) : option Value :=
  lookup "archived" (doc_fields d).

(** What an update of the document of id [k] with [fields] makes of a
    collection: that document gets the fields, the others stay. *)
Definition updated (k : ObjectId.t) (fields : Obj Value) (docs : list Doc)
  : list Doc :=
  map (fun d => if (k =? doc_id d)%N then set_fields fields d else d) docs.

(** The page info agrees with the edges of a page of size [n]: each edge
    carries the cursor of its own record; [startCursor] and [endCursor]
    are the cursors of the first and of the last edge, and are both
    [null] when there is no edge; a page that announces a next page is
    full and has an [endCursor]. *)
Definition coherent_page {codec : CursorCodec} (n : nat) (p : Page) : Prop :=
  Forall (fun e => cursor e = encodeCursor (id_of (node e))) (edges p)
  /\ (edges p = [] ->
      startCursor (pageInfo p) = None /\ endCursor (pageInfo p) = None)
  /\ (forall e es, edges p = e :: es ->
                   startCursor (pageInfo p) = Some (cursor e))
  /\ (forall es e, edges p = es ++ [e] ->
                   endCursor (pageInfo p) = Some (cursor e))
  /\ (hasNextPage (pageInfo p) = true ->
      List.length (edges p) = n /\ endCursor (pageInfo p) <> None).


(** A walk ends well when every page but the last announces a next page
    and the last one does not. *)
Definition ends_well (pages : list Page) : Prop :=
  exists k : nat,
    map (fun p => hasNextPage (pageInfo p)) pages = repeat true k ++ [false].

(** ** Concrete platforms and collections, for examples *)

Definition lower (c : ascii) : ascii :=
  let n := N_of_ascii c in
  if ((65 <=? n) && (n <=? 90))%N then ascii_of_N (n + 32) else c.

Fixpoint lowerCase (s : string) : string :=
  match s with
  | EmptyString => EmptyString
  | String c s' => String (lower c) (lowerCase s')
  end.

(** An engine for patterns without metacharacters: every pattern compiles
    except the unclosed group ["("], and a pattern matches the strings
    that contain it, letter case ignored. *)
#[export] Instance literalEngine : RegExpEngine := {
  regexCompiles := fun src _ => negb (src =? "(")%string;
  regexTest := fun r s =>
    match String.index 0 (lowerCase (source r)) (lowerCase s) with
    | Some _ => true
    | None => false
    end
}.

(** The string of the bytes given by their codes. *)
Definition bytes (l : list nat) : string :=
  string_of_list_ascii (map ascii_of_nat l).

(** An [ObjectId] constructor for the examples: an object id is kept, a
    string is cast as [ObjectId.cast] does, [undefined] and [null] give
    the id [generated], and everything else throws. *)
Definition generated : ObjectId.t := 1%N.

#[export] Instance strictBson : Bson := {
  newObjectId := fun v =>
    match v with
    | Some (VStr s) =>
        match ObjectId.cast s with
        | Some id => Ok id
        | None => Throw BSONTypeError
        end
    | Some (VId id) => Ok id
    | None | Some VNull => Ok generated
    | _ => Throw BSONTypeError
    end
}.

(** A codec whose [decodeCursor] throws on every input. *)
Definition deafCodec : CursorCodec := {|
  encodeCursor := Pagination.encodeCursor;
  decodeCursor := fun _ => Throw InvalidCursor
|}.

(** A codec whose [decodeCursor] answers the payload after the prefix
    ["id:"], whatever it is, and throws without that prefix. *)
Definition laxCodec : CursorCodec := {|
  encodeCursor := fun k => String.append "id:" k;
  decodeCursor := fun c =>
    if String.prefix "id:" c
    then Ok (String.substring 3 (String.length c - 3) c)
    else Throw InvalidCursor
|}.

Definition order (id : N) (batch : Z) (archived : bool) : Doc :=
  {| doc_id := id;
     doc_fields := [("client", VStr "c"); ("deliverAt", VStr "2021-01-01");
                    ("items", VArr []); ("batch", VNum batch);
                    ("createdAt", VNum 0); ("archived", VBool archived)] |}.

Definition product (id : N) (description : string) : Doc :=
  {| doc_id := id;
     doc_fields := [("description", VStr description);
                    ("defaultMeasurementUnit", VStr "kg");
                    ("conversions", VArr []);
                    ("archived", VBool false)] |}.

Definition ids (from count : nat) : list N := map N.of_nat (seq from count).

(** Orders 1 to 65, stored in increasing order; batch 7 holds the even
    ones, batch 8 the odd ones. *)
Definition orders65 : list Doc :=
  map (fun i => order i (if N.even i then 7 else 8)%Z false) (ids 1 65).

(** Two products stored in the order 2, 1. *)
Definition products21 : list Doc :=
  [product 2 "pear"; product 1 "apple"].

(** Products 1 to 28, then 31, 29, 30, in that natural order. *)
Definition products31 : list Doc :=
  map (fun i => product i "item") (ids 1 28 ++ [31; 29; 30]%N).

(** Products 1 to 40 stored in increasing order. *)
Definition products40 : list Doc :=
  map (fun i => product i "item") (ids 1 40).

(** The cursor of an object id. *)
Definition cursor_of (id : ObjectId.t) : string :=
  Pagination.encodeCursor (ObjectId.toHexString id).

(** Three orders, a batch, and the database that holds them. *)
Definition orders3 : list Doc :=
  [order 1 7 false; order 2 7 false; order 3 8 false].

Definition batch9 : Doc :=
  {| doc_id := 9%N;
     doc_fields := [("number", VNum 7); ("orders", VArr [])] |}.

Definition db0 : Db :=
  {| orders := orders3; products := products21; batches := [batch9] |}.

Definition always (d : Doc) : bool := true.

(** A request on the document of id [id]. *)
Definition on (id : N) (fields : Obj Value) : ItemRequest :=
  {| params_id := ObjectId.toHexString id; body := fields |}.

(** The body of a well-formed order, for the batch of id [batch]. *)
Definition order_body (batch : Value) : Obj Value :=
  [("client", VStr "ann"); ("batch", batch);
   ("deliverAt", VStr "2021-05-01");
   ("items", VArr [VObj [("item", VStr (ObjectId.toHexString 2%N));
                         ("quantity", VNum 3)]])].

Definition product_body : Obj Value :=
  [("description", VStr "plum"); ("defaultMeasurementUnit", VStr "kg");
   ("conversions", VArr [])].

(** * Properties *)

(** ** Lists and strings *)

Lemma list_ind3 {A : Type} (P : list A -> Prop) :
  P [] -> (forall a, P [a]) -> (forall a b, P [a; b]) ->
  (forall a b c l, P l -> P (a :: b :: c :: l)) ->
  forall l, P l.
Proof.
  intros H0 H1 H2 Hstep l.
  enough (P l /\ (forall a, P (a :: l)) /\ (forall a b, P (a :: b :: l)))
    by tauto.
  induction l as [|x l (IH0 & IH1 & IH2)]; repeat split; auto.
Qed.

Lemma list_ind4 {A : Type} (P : list A -> Prop) :
  P [] -> (forall a, P [a]) -> (forall a b, P [a; b]) ->
  (forall a b c, P [a; b; c]) ->
  (forall a b c d l, P l -> P (a :: b :: c :: d :: l)) ->
  forall l, P l.
Proof.
  intros H0 H1 H2 H3 Hstep l.
  enough (P l /\ (forall a, P (a :: l)) /\ (forall a b, P (a :: b :: l))
          /\ (forall a b c, P (a :: b :: c :: l))) by tauto.
  induction l as [|x l (IH0 & IH1 & IH2 & IH3)]; repeat split; auto.
Qed.

Lemma length_string_of_list_ascii (l : list ascii) :
  String.length (string_of_list_ascii l) = List.length l.
Proof. induction l; simpl; congruence. Qed.

Lemma length_list_ascii_of_string (s : string) :
  List.length (list_ascii_of_string s) = String.length s.
Proof. induction s; simpl; congruence. Qed.

(** Arithmetic on [N] with division and remainder by constants. *)
Ltac ndiv := zify; Z.to_euclidean_division_equations; lia.

(** Case analysis on a natural number known to be below the bound [k]. *)
Tactic Notation "below" integer(k) ident(n) :=
  do k (destruct n as [|n]; [vm_compute; reflexivity|]); exfalso; lia.

(** ** Object ids: the string form is read back by the cast *)

Lemma hexValue_hexChar (d : N) :
  (d < 16)%N -> ObjectId.hexValue (ObjectId.hexChar d) = Some d.
Proof.
  intros Hd. rewrite <- (N2Nat.id d).
  assert (Hn : (N.to_nat d < 16)%nat) by lia.
  revert Hn. generalize (N.to_nat d). clear. intros n Hn. below 16 n.
Qed.

Lemma isLowerHex_hexChar (d : N) :
  (d < 16)%N -> Pagination.isLowerHex (ObjectId.hexChar d) = true.
Proof.
  intros Hd. rewrite <- (N2Nat.id d).
  assert (Hn : (N.to_nat d < 16)%nat) by lia.
  revert Hn. generalize (N.to_nat d). clear. intros n Hn. below 16 n.
Qed.

Lemma length_toHex (w : nat) (n : N) : List.length (ObjectId.toHex w n) = w.
Proof.
  revert n. induction w as [|w IH]; intros n; simpl; [reflexivity|].
  rewrite length_app, IH. simpl. lia.
Qed.

Lemma parseHex_toHex (w : nat) :
  forall (n acc : N) (r : list ascii),
    ObjectId.parseHex acc (ObjectId.toHex w n ++ r)
    = ObjectId.parseHex (acc * 16 ^ N.of_nat w + n mod 16 ^ N.of_nat w)%N r.
Proof.
  induction w as [|w IH]; intros n acc r.
  - simpl. rewrite N.mod_1_r. f_equal. lia.
  - cbn [ObjectId.toHex]. rewrite <- app_assoc, IH. cbn [app ObjectId.parseHex].
    rewrite hexValue_hexChar by (apply N.mod_lt; lia).
    f_equal. rewrite Nat2N.inj_succ, N.pow_succ_r'.
    set (p := (16 ^ N.of_nat w)%N).
    assert (Hp : (0 < p)%N) by (apply N.neq_0_lt_0, N.pow_nonzero; lia).
    rewrite N.Div0.mod_mul_r.
    generalize ((n / 16) mod p)%N (n mod 16)%N. intros x y. nia.
Qed.

Lemma cast_toHexString (id : ObjectId.t) :
  ObjectId.valid id -> ObjectId.cast (ObjectId.toHexString id) = Some id.
Proof.
  unfold ObjectId.valid, ObjectId.cast, ObjectId.toHexString. intros Hid.
  rewrite length_string_of_list_ascii, length_toHex. simpl Nat.eqb. cbv iota.
  rewrite list_ascii_of_string_of_list_ascii.
  rewrite <- (app_nil_r (ObjectId.toHex 24 id)), parseHex_toHex.
  cbn [ObjectId.parseHex]. f_equal.
  change (16 ^ N.of_nat 24)%N with (2 ^ 96)%N.
  rewrite N.mod_small by assumption. now rewrite N.mul_0_l.
Qed.

Lemma forallb_isLowerHex_toHex (w : nat) (n : N) :
  forallb Pagination.isLowerHex (ObjectId.toHex w n) = true.
Proof.
  revert n. induction w as [|w IH]; intros n; simpl; [reflexivity|].
  rewrite forallb_app, IH. simpl.
  rewrite isLowerHex_hexChar by (apply N.mod_lt; lia). reflexivity.
Qed.

Lemma isKey_toHexString (id : ObjectId.t) :
  Pagination.isKey (ObjectId.toHexString id) = true.
Proof.
  unfold Pagination.isKey, ObjectId.toHexString.
  rewrite length_string_of_list_ascii, length_toHex.
  rewrite list_ascii_of_string_of_list_ascii, forallb_isLowerHex_toHex.
  reflexivity.
Qed.

(** ** [parseInt] and the cast of ids, on examples *)

(** Leading white space of one to three bytes is skipped, what follows
    the digits is ignored, a sign is read, and a string without leading
    digits gives [NaN]. *)
Lemma parseInt_examples :
  JS.parseInt "42" = JS.Num 42
  /\ JS.parseInt "  -42abc" = JS.Num (-42)
  /\ JS.parseInt "+7.9" = JS.Num 7
  /\ JS.parseInt "007" = JS.Num 7
  /\ JS.parseInt "-0" = JS.Num 0
  /\ JS.parseInt "1e3" = JS.Num 1
  /\ JS.parseInt (String.append (bytes [194; 160]) "7") = JS.Num 7
  /\ JS.parseInt (String.append (bytes [239; 187; 191; 226; 128; 168]) "7")
     = JS.Num 7
  /\ JS.parseInt (String.append (bytes [160; 9; 10]) "7") = JS.Num 7
  /\ JS.parseInt "" = JS.NaN
  /\ JS.parseInt "abc" = JS.NaN
  /\ JS.parseInt "- 7" = JS.NaN
  /\ JS.parseInt "0x10" = JS.Num 0.
Proof.
  repeat split; vm_compute; reflexivity.
Qed.

(** From 2^53 on the integer read is rounded to a double, ties to even,
    and to an infinity from 2^1024 - 2^970 on. *)
Lemma parseInt_rounds :
  JS.parseInt "9007199254740991" = JS.Num 9007199254740991
  /\ JS.parseInt "9007199254740993" = JS.Num 9007199254740992
  /\ JS.parseInt "9007199254740995" = JS.Num 9007199254740996
  /\ JS.parseInt "-9007199254740993" = JS.Num (-9007199254740992)
  /\ JS.parseInt "36028797018963969" = JS.Num 36028797018963968
  /\ JS.toDouble (2 ^ 1024 - 2 ^ 970 - 1) = JS.Num (2 ^ 1024 - 2 ^ 971)
  /\ JS.toDouble (2 ^ 1024 - 2 ^ 970) = JS.Infinity false
  /\ JS.toDouble (- 2 ^ 1024) = JS.Infinity true.
Proof.
  repeat split; vm_compute; reflexivity.
Qed.

Lemma toDouble_exact (z : Z) :
  (Z.abs z < 2 ^ 53)%Z -> JS.toDouble z = JS.Num z.
Proof.
  intros Hz. unfold JS.toDouble.
  destruct (Z.ltb_spec (Z.abs z) (2 ^ 53)) as [_|Hge]; [reflexivity|lia].
Qed.

(** A string of 12 bytes is cast to the id of these bytes, a string of 24
    hexadecimal digits, in either case, to the id they spell; other
    strings are not cast. *)
Lemma cast_examples :
  ObjectId.cast "abcdefghijkl" = Some 30138990049255557934854335340%N
  /\ ObjectId.cast "000000000000000000000007" = Some 7%N
  /\ ObjectId.cast "00000000000000000000000A" = Some 10%N
  /\ ObjectId.cast "00000000000000000000000a" = Some 10%N
  /\ ObjectId.cast "7" = None
  /\ ObjectId.cast "" = None
  /\ ObjectId.cast "00000000000000000000000g" = None
  /\ ObjectId.cast (bytes [195; 169; 98; 99; 100; 101; 102; 103; 104; 105;
                           106; 107]) = None.
Proof.
  repeat split; vm_compute; reflexivity.
Qed.

(** ** Base64: encoding and strict decoding are inverse *)

Lemma value_char (s : N) :
  (s < 64)%N -> Base64.value (Base64.char s) = Some s.
Proof.
  intros Hs. rewrite <- (N2Nat.id s).
  assert (Hn : (N.to_nat s < 64)%nat) by lia.
  revert Hn. generalize (N.to_nat s). clear. intros n Hn. below 64 n.
Qed.

Lemma char_value (c : ascii) (s : N) :
  Base64.value c = Some s -> (s < 64)%N /\ Base64.char s = c.
Proof.
  destruct c as [b0 b1 b2 b3 b4 b5 b6 b7].
  destruct b0, b1, b2, b3, b4, b5, b6, b7; vm_compute;
    intros E; try discriminate E; injection E as <-; split; reflexivity.
Qed.

Lemma value_pad : Base64.value Base64.pad = None.
Proof. reflexivity. Qed.

Lemma byte_code (a : ascii) (n : N) : n = N_of_ascii a -> Base64.byte n = a.
Proof. intros ->. apply ascii_N_embedding. Qed.

Lemma code_byte (n : N) : (n < 256)%N -> N_of_ascii (Base64.byte n) = n.
Proof. apply N_ascii_embedding. Qed.

Lemma decode_encode_bytes (l : list ascii) :
  Base64.decode (Base64.encode l) = Some l.
Proof.
  induction l as [|a|a b|a b c l IH] using list_ind3.
  - reflexivity.
  - pose proof (N_ascii_bounded a).
    cbn [Base64.encode Base64.decode].
    rewrite !value_char, value_pad by ndiv.
    replace ((N_of_ascii a mod 4 * 16) mod 16 =? 0)%N with true
      by (symmetry; apply N.eqb_eq; ndiv).
    cbn. f_equal. f_equal. apply byte_code. ndiv.
  - pose proof (N_ascii_bounded a). pose proof (N_ascii_bounded b).
    cbn [Base64.encode Base64.decode].
    rewrite !value_char, value_pad by ndiv.
    replace ((N_of_ascii b mod 16 * 4) mod 4 =? 0)%N with true
      by (symmetry; apply N.eqb_eq; ndiv).
    cbn. f_equal. f_equal; [|f_equal]; apply byte_code; ndiv.
  - pose proof (N_ascii_bounded a). pose proof (N_ascii_bounded b).
    pose proof (N_ascii_bounded c).
    cbn [Base64.encode Base64.decode].
    rewrite !value_char by ndiv. rewrite IH.
    f_equal. f_equal; [|f_equal; [|f_equal]]; apply byte_code; ndiv.
Qed.

Lemma encode_decode_bytes (l : list ascii) :
  forall bytes, Base64.decode l = Some bytes -> Base64.encode bytes = l.
Proof.
  induction l as [|c1|c1 c2|c1 c2 c3|c1 c2 c3 c4 l IH] using list_ind4;
    intros bytes; cbn [Base64.decode]; try discriminate.
  - intros [= <-]. reflexivity.
  - destruct (Base64.value c1) as [s1|] eqn:E1; [|discriminate].
    destruct (Base64.value c2) as [s2|] eqn:E2; [|discriminate].
    apply char_value in E1 as [B1 <-]. apply char_value in E2 as [B2 <-].
    destruct (Base64.value c3) as [s3|] eqn:E3.
    + apply char_value in E3 as [B3 <-].
      destruct (Base64.value c4) as [s4|] eqn:E4.
      * apply char_value in E4 as [B4 <-].
        destruct (Base64.decode l) as [tl|]; [|discriminate].
        intros [= <-]. cbn [Base64.encode].
        rewrite !code_byte by ndiv. rewrite (IH tl eq_refl).
        repeat f_equal; ndiv.
      * destruct l; [|discriminate].
        destruct (Ascii.eqb c4 Base64.pad) eqn:P4; [|discriminate].
        apply Ascii.eqb_eq in P4. subst c4.
        destruct (s3 mod 4 =? 0)%N eqn:Z3; [|discriminate].
        apply N.eqb_eq in Z3.
        intros [= <-]. cbn [Base64.encode].
        rewrite !code_byte by ndiv.
        repeat f_equal; ndiv.
    + destruct l; [|discriminate].
      destruct (Ascii.eqb c3 Base64.pad) eqn:P3; [|discriminate].
      destruct (Ascii.eqb c4 Base64.pad) eqn:P4; [|discriminate].
      apply Ascii.eqb_eq in P3, P4. subst c3 c4.
      destruct (s2 mod 16 =? 0)%N eqn:Z2; [|discriminate].
      apply N.eqb_eq in Z2.
      intros [= <-]. cbn [Base64.encode].
      rewrite !code_byte by ndiv.
      repeat f_equal; ndiv.
Qed.

(** ** The cursor codec *)

Lemma decode_encode_key (k : string) :
  Pagination.isKey k = true ->
  Pagination.decodeCursor (Pagination.encodeCursor k) = Ok k.
Proof.
  intros Hk. unfold Pagination.decodeCursor, Pagination.encodeCursor.
  rewrite list_ascii_of_string_of_list_ascii, decode_encode_bytes.
  rewrite string_of_list_ascii_of_string, Hk. reflexivity.
Qed.

Lemma decodeCursor_inv (c k : string) :
  Pagination.decodeCursor c = Ok k ->
  Pagination.isKey k = true /\ Pagination.encodeCursor k = c.
Proof.
  unfold Pagination.decodeCursor, Pagination.encodeCursor.
  destruct (Base64.decode (list_ascii_of_string c)) as [bytes|] eqn:E;
    [|discriminate].
  destruct (Pagination.isKey (string_of_list_ascii bytes)) eqn:Hk;
    [|discriminate].
  intros [= <-]. split; [assumption|].
  rewrite list_ascii_of_string_of_list_ascii.
  rewrite (encode_decode_bytes _ _ E).
  apply string_of_list_ascii_of_string.
Qed.

Lemma decodeCursor_error (c : string) (e : Error) :
  Pagination.decodeCursor c = Throw e -> e = InvalidCursor.
Proof.
  unfold Pagination.decodeCursor.
  destruct (Base64.decode _); [destruct (Pagination.isKey _)|]; congruence.
Qed.

Lemma encodeCursor_truthy (k : string) :
  Pagination.isKey k = true ->
  JS.truthy_string (Pagination.encodeCursor k) = true.
Proof.
  unfold Pagination.isKey, Pagination.encodeCursor. intros Hk.
  apply andb_true_iff in Hk as [Hlen _]. apply Nat.eqb_eq in Hlen.
  rewrite <- length_list_ascii_of_string in Hlen.
  destruct (list_ascii_of_string k) as [|a [|b [|c l]]]; try discriminate.
  reflexivity.
Qed.

Lemma base64_laws : CodecLaws base64Codec.
Proof.
  split; intros id; cbn [encodeCursor decodeCursor base64Codec].
  - apply decode_encode_key, isKey_toHexString.
  - apply encodeCursor_truthy, isKey_toHexString.
Qed.

(** ** The list handlers, step by step *)

Section HandlerFacts.

Context {globals : Globals} {codec : CursorCodec}
        {engine : RegExpEngine} {S : Type}.

(** The orders listing: decode the cursor, run the query, count, and
    answer the page; any exception becomes status 422. *)
Lemma orders_index_eq (Order : Model S) (s : S) (req : Request) :
  Orders.index Order s req
  = try_catch
      (cf <- Orders.cursorFilters (afterCursor req) ;;
       items <- exec Order s
                  (Orders.query cf (Orders.searchFilter (search req))) ;;
       total <- countDocuments Order s (Orders.searchFilter (search req)) ;;
       Ok (Send 200 (page_of Orders.DEFAULT_PAGE_SIZE items total)))%exc
      (fun _ => SendStatus 422).
Proof. reflexivity. Qed.

Lemma products_index_eq (Product : Model S) (s : S) (req : Request) :
  Products.index Product s req
  = try_catch
      (sf <- Products.searchFilter (search req) ;;
       cf <- Products.cursorFilters (afterCursor req) ;;
       items <- exec Product s (Products.query cf sf) ;;
       total <- countDocuments Product s sf ;;
       Ok (Send 200 (page_of Products.DEFAULT_PAGE_SIZE items total)))%exc
      (fun _ => SendStatus 422).
Proof. reflexivity. Qed.

(** What a [Send] answer of each handler tells about the calls made. *)
Lemma orders_index_send (Order : Model S) (s : S) (req : Request)
      (code : nat) (p : Page) :
  Orders.index Order s req = Send code p ->
  exists cf items total,
    Orders.cursorFilters (afterCursor req) = Ok cf
    /\ exec Order s (Orders.query cf (Orders.searchFilter (search req)))
       = Ok items
    /\ countDocuments Order s (Orders.searchFilter (search req)) = Ok total
    /\ code = 200%nat
    /\ p = page_of Orders.DEFAULT_PAGE_SIZE items total.
Proof.
  rewrite orders_index_eq. unfold try_catch, bind.
  destruct (Orders.cursorFilters _) as [cf|] eqn:Ecf; [|discriminate].
  destruct (exec Order s _) as [items|] eqn:Eit; [|discriminate].
  destruct (countDocuments Order s _) as [total|] eqn:Etot; [|discriminate].
  intros [= <- <-]. exists cf, items, total. repeat split; auto.
Qed.

Lemma products_index_send (Product : Model S) (s : S) (req : Request)
      (code : nat) (p : Page) :
  Products.index Product s req = Send code p ->
  exists sf cf items total,
    Products.searchFilter (search req) = Ok sf
    /\ Products.cursorFilters (afterCursor req) = Ok cf
    /\ exec Product s (Products.query cf sf) = Ok items
    /\ countDocuments Product s sf = Ok total
    /\ code = 200%nat
    /\ p = page_of Products.DEFAULT_PAGE_SIZE items total.
Proof.
  rewrite products_index_eq. unfold try_catch, bind.
  destruct (Products.searchFilter _) as [sf|] eqn:Esf; [|discriminate].
  destruct (Products.cursorFilters _) as [cf|] eqn:Ecf; [|discriminate].
  destruct (exec Product s _) as [items|] eqn:Eit; [|discriminate].
  destruct (countDocuments Product s _) as [total|] eqn:Etot;
    [|discriminate].
  intros [= <- <-]. exists sf, cf, items, total. repeat split; auto.
Qed.

(** *** The page built from the returned records *)

Lemma nodes_page_of (n : nat) (items : list Doc) (total : nat) :
  map node (edges (page_of n items total))
  = if (n <? List.length items)%nat then firstn n items else items.
Proof.
  unfold page_of. cbn [edges]. rewrite map_map. cbn [node].
  apply map_id.
Qed.

Lemma hasNextPage_page_of (n : nat) (items : list Doc) (total : nat) :
  hasNextPage (pageInfo (page_of n items total))
  = (n <? List.length items)%nat.
Proof. reflexivity. Qed.

Lemma totalCount_page_of (n : nat) (items : list Doc) (total : nat) :
  totalCount (page_of n items total) = total.
Proof. reflexivity. Qed.

Lemma length_edges_page_of (n : nat) (items : list Doc) (total : nat) :
  (List.length (edges (page_of n items total)) <= n)%nat.
Proof.
  rewrite <- (length_map node), nodes_page_of.
  destruct (n <? List.length items)%nat eqn:E.
  - rewrite length_firstn. lia.
  - apply Nat.ltb_ge in E. exact E.
Qed.

Lemma cursors_page_of (n : nat) (items : list Doc) (total : nat) :
  Forall (fun e => cursor e = encodeCursor (id_of (node e)))
         (edges (page_of n items total)).
Proof.
  unfold page_of. cbn [edges]. apply Forall_forall. intros e He.
  apply in_map_iff in He as (r & <- & _). reflexivity.
Qed.

Lemma endCursor_page_of (n : nat) (items : list Doc) (total : nat)
      (Q : list Doc) (d : Doc) :
  (if (n <? List.length items)%nat then firstn n items else items)
  = Q ++ [d] ->
  endCursor (pageInfo (page_of n items total))
  = Some (encodeCursor (id_of d)).
Proof.
  intros E. unfold page_of. cbn [pageInfo endCursor]. rewrite E.
  rewrite length_map, length_app. cbn [List.length].
  replace (0 <? List.length Q + 1)%nat with true
    by (symmetry; apply Nat.ltb_lt; lia).
  rewrite nth_error_map.
  replace (List.length Q + 1 - 1)%nat with (List.length Q + 0)%nat by lia.
  rewrite nth_error_app2, Nat.add_comm, Nat.add_sub by lia.
  reflexivity.
Qed.

Lemma startCursor_page_of (n : nat) (items : list Doc) (total : nat)
      (d : Doc) (Q : list Doc) :
  (if (n <? List.length items)%nat then firstn n items else items)
  = d :: Q ->
  startCursor (pageInfo (page_of n items total))
  = Some (encodeCursor (id_of d)).
Proof.
  intros E. unfold page_of. cbn [pageInfo startCursor]. rewrite E.
  reflexivity.
Qed.

Lemma cursors_page_of_empty (n : nat) (items : list Doc) (total : nat) :
  (if (n <? List.length items)%nat then firstn n items else items) = [] ->
  startCursor (pageInfo (page_of n items total)) = None
  /\ endCursor (pageInfo (page_of n items total)) = None.
Proof.
  intros E. unfold page_of. cbn [pageInfo startCursor endCursor].
  rewrite E. split; reflexivity.
Qed.

End HandlerFacts.

(** ** Sorting a collection by [_id] *)

Section SortFacts.


Lemma insert_desc_perm (x : Doc) (l : list Doc) :
  Permutation (insert_desc x l) (x :: l).
Proof.
  induction l as [|y l IH]; cbn [insert_desc]; [reflexivity|].
  destruct (doc_id y <=? doc_id x)%N; [reflexivity|].
  rewrite IH. apply perm_swap.
Qed.

Lemma sort_desc_perm (l : list Doc) : Permutation (sort_by Desc l) l.
Proof.
  induction l as [|x l IH]; cbn; [reflexivity|].
  rewrite insert_desc_perm. now apply perm_skip.
Qed.

Lemma insert_desc_sorted (x : Doc) (l : list Doc) :
  weakly_descending l -> weakly_descending (insert_desc x l).
Proof.
  unfold weakly_descending.
  induction l as [|y l IH]; intros Hl; cbn [insert_desc].
  - repeat constructor.
  - destruct (doc_id y <=? doc_id x)%N eqn:E.
    + apply N.leb_le in E. constructor; [assumption|].
      apply StronglySorted_inv in Hl as [_ Hy].
      constructor; [assumption|].
      eapply Forall_impl; [|exact Hy]. cbn. intros; lia.
    + apply N.leb_gt in E.
      apply StronglySorted_inv in Hl as [Hl Hy].
      constructor; [auto|].
      eapply Permutation_Forall; [symmetry; apply insert_desc_perm|].
      constructor; [lia|assumption].
Qed.

Lemma sort_desc_sorted (l : list Doc) : weakly_descending (sort_by Desc l).
Proof.
  induction l as [|x l IH]; cbn.
  - constructor.
  - now apply insert_desc_sorted.
Qed.

Lemma weakly_descending_strict (l : list Doc) :
  NoDup (keys l) -> weakly_descending l -> descending l.
Proof.
  unfold weakly_descending, descending.
  induction l as [|x l IH]; intros Hnd Hl; [constructor|].
  cbn in Hnd. apply NoDup_cons_iff in Hnd as [Hx Hnd].
  apply StronglySorted_inv in Hl as [Hl Hall].
  constructor; [auto|].
  rewrite Forall_forall in *. intros y Hy.
  specialize (Hall y Hy).
  assert (doc_id y <> doc_id x)
    by (intros E; apply Hx; rewrite <- E; now apply in_map).
  lia.
Qed.

Lemma sort_desc_descending (l : list Doc) :
  NoDup (keys l) -> descending (sort_by Desc l).
Proof.
  intros Hnd. apply weakly_descending_strict; [|apply sort_desc_sorted].
  eapply Permutation_NoDup; [|exact Hnd].
  apply Permutation_map. symmetry. apply sort_desc_perm.
Qed.

(** Selecting commutes with sorting. *)
Lemma insert_desc_head (x : Doc) (l : list Doc) :
  Forall (fun z => (doc_id z <= doc_id x)%N) l -> insert_desc x l = x :: l.
Proof.
  destruct l as [|y l]; [reflexivity|]. intros Hl.
  apply Forall_inv in Hl. apply N.leb_le in Hl.
  cbn [insert_desc]. now rewrite Hl.
Qed.

Lemma filter_insert_desc (p : Doc -> bool) (x : Doc) (l : list Doc) :
  weakly_descending l ->
  filter p (insert_desc x l)
  = if p x then insert_desc x (filter p l) else filter p l.
Proof.
  unfold weakly_descending.
  induction l as [|y l IH]; intros Hl.
  - cbn. now destruct (p x).
  - apply StronglySorted_inv in Hl as [Hl Hall].
    cbn [insert_desc]. destruct (doc_id y <=? doc_id x)%N eqn:E.
    + apply N.leb_le in E.
      assert (Hf : Forall (fun z => (doc_id z <= doc_id x)%N)
                          (filter p (y :: l))).
      { apply Forall_forall. intros z Hz. apply filter_In in Hz as [Hz _].
        destruct Hz as [<-|Hz]; [assumption|].
        rewrite Forall_forall in Hall. specialize (Hall z Hz). lia. }
      cbn [filter] in *. destruct (p x); [|reflexivity].
      symmetry. now apply insert_desc_head.
    + cbn [filter]. rewrite (IH Hl).
      destruct (p y), (p x); try reflexivity.
      cbn [insert_desc]. now rewrite E.
Qed.

Lemma filter_sort_desc (p : Doc -> bool) (l : list Doc) :
  filter p (sort_by Desc l) = sort_by Desc (filter p l).
Proof.
  induction l as [|x l IH]; [reflexivity|].
  cbn [sort_by fold_right] in *.
  rewrite filter_insert_desc by apply (sort_desc_sorted l).
  cbn [filter]. destruct (p x); cbn [fold_right]; now rewrite IH.
Qed.

(** In a strictly ordered list, the records beyond a record are those
    the cursor predicate of that record selects. *)
Lemma descending_after (P R : list Doc) (d : Doc) :
  descending (P ++ d :: R) ->
  filter (fun x => (doc_id x <? doc_id d)%N) (P ++ d :: R) = R.
Proof.
  unfold descending. induction P as [|y P IH]; intros Hs.
  - cbn [app filter]. rewrite N.ltb_irrefl.
    apply StronglySorted_inv in Hs as [_ Hall].
    rewrite Forall_forall in Hall.
    apply forallb_filter_id. apply forallb_forall. intros z Hz.
    apply N.ltb_lt. auto.
  - cbn [app] in *. apply StronglySorted_inv in Hs as [Hs Hall].
    cbn [filter].
    assert (Hy : (doc_id d < doc_id y)%N).
    { rewrite Forall_forall in Hall. apply Hall.
      apply in_or_app. right. now left. }
    replace (doc_id y <? doc_id d)%N with false
      by (symmetry; apply N.ltb_ge; lia).
    auto.
Qed.

Lemma ascending_after (P R : list Doc) (d : Doc) :
  ascending (P ++ d :: R) ->
  filter (fun x => (doc_id d <? doc_id x)%N) (P ++ d :: R) = R.
Proof.
  unfold ascending. induction P as [|y P IH]; intros Hs.
  - cbn [app filter]. rewrite N.ltb_irrefl.
    apply StronglySorted_inv in Hs as [_ Hall].
    rewrite Forall_forall in Hall.
    apply forallb_filter_id. apply forallb_forall. intros z Hz.
    apply N.ltb_lt. auto.
  - cbn [app] in *. apply StronglySorted_inv in Hs as [Hs Hall].
    cbn [filter].
    assert (Hy : (doc_id y < doc_id d)%N).
    { rewrite Forall_forall in Hall. apply Hall.
      apply in_or_app. right. now left. }
    replace (doc_id d <? doc_id y)%N with false
      by (symmetry; apply N.ltb_ge; lia).
    auto.
Qed.

Lemma filter_descending (p : Doc -> bool) (l : list Doc) :
  descending l -> descending (filter p l).
Proof.
  unfold descending. induction l as [|x l IH]; intros Hs; [constructor|].
  apply StronglySorted_inv in Hs as [Hs Hall]. cbn [filter].
  destruct (p x); [|auto]. constructor; [auto|].
  rewrite Forall_forall in *. intros z Hz.
  apply filter_In in Hz as [Hz _]. auto.
Qed.

Lemma filter_ascending (p : Doc -> bool) (l : list Doc) :
  ascending l -> ascending (filter p l).
Proof.
  unfold ascending. induction l as [|x l IH]; intros Hs; [constructor|].
  apply StronglySorted_inv in Hs as [Hs Hall]. cbn [filter].
  destruct (p x); [|auto]. constructor; [auto|].
  rewrite Forall_forall in *. intros z Hz.
  apply filter_In in Hz as [Hz _]. auto.
Qed.

Lemma filter_and (p q : Doc -> bool) (l : list Doc) :
  filter (fun x => p x && q x) l = filter p (filter q l).
Proof.
  induction l as [|x l IH]; [reflexivity|]. cbn [filter].
  destruct (q x); cbn [filter]; destruct (p x); cbn [andb];
    now rewrite IH.
Qed.

End SortFacts.

(** ** Walking the pages of a listing served in a fixed order *)

Section WalkFacts.

Context {codec : CursorCodec}.

Variable index : Request -> Response Page.
Variable term : option string.
Variable n total : nat.
Variable L : list Doc.

(** The listing serves [R] after cursor [after] when it answers the page
    cut from the first [n + 1] records of [R]. *)
Let serves (after : option string) (R : list Doc) : Prop :=
  index {| search := term; afterCursor := after |}
  = Send 200 (page_of n (firstn (n + 1) R) total).

Hypothesis n_positive : (0 < n)%nat.
Hypothesis serves_next : forall (P R : list Doc) (d : Doc),
    L = P ++ d :: R ->
    serves (Some (encodeCursor (id_of d))) R.

Lemma walk_from (fuel : nat) :
  forall (R P : list Doc) (after : option string),
    L = P ++ R ->
    serves after R ->
    (List.length R < fuel)%nat ->
    exists pages,
      walk index term fuel after = Some pages
      /\ visited pages = R
      /\ ends_well pages
      /\ Forall (fun p => (List.length (edges p) <= n)%nat
                          /\ totalCount p = total) pages.
Proof.
  induction fuel as [|fuel IH]; intros R P after HL Hserve Hlen; [lia|].
  cbn [walk]. rewrite Hserve.
  set (items := firstn (n + 1) R).
  pose (p := page_of n items total).
  rewrite (hasNextPage_page_of n items total).
  destruct (n <? List.length items)%nat eqn:Hmore.
  - apply Nat.ltb_lt in Hmore.
    assert (HR : (n < List.length R)%nat).
    { subst items. rewrite length_firstn in Hmore. lia. }
    assert (Hkept : (if (n <? List.length items)%nat
                     then firstn n items else items) = firstn n R).
    { replace (n <? List.length items)%nat with true
        by (symmetry; apply Nat.ltb_lt; lia).
      subst items. rewrite firstn_firstn. f_equal. lia. }
    destruct (exists_last (l := firstn n R)) as (Q & d & HQ).
    { intros E. apply (f_equal (@List.length Doc)) in E.
      rewrite length_firstn in E. cbn in E. lia. }
    rewrite (endCursor_page_of n items total Q d) by congruence.
    assert (HL' : L = (P ++ Q) ++ d :: skipn n R).
    { rewrite HL, <- (firstn_skipn n R) at 1. rewrite HQ.
      now rewrite <- !app_assoc. }
    destruct (IH (skipn n R) (P ++ Q ++ [d])
                 (Some (encodeCursor (id_of d))))
      as (pages & Hw & Hv & He & Hb).
    + rewrite HL', <- !app_assoc. reflexivity.
    + eapply serves_next. exact HL'.
    + rewrite length_skipn. lia.
    + rewrite Hw. exists (p :: pages). repeat split.
      * cbn [visited flat_map]. fold (visited pages). rewrite Hv.
        subst p. rewrite nodes_page_of, Hkept. apply firstn_skipn.
      * destruct He as [k Hk]. exists (S k). cbn [map repeat app].
        rewrite Hk. f_equal. subst p. rewrite hasNextPage_page_of.
        apply Nat.ltb_lt. lia.
      * constructor; [|assumption]. split.
        -- apply length_edges_page_of.
        -- reflexivity.
  - apply Nat.ltb_ge in Hmore.
    assert (HR : (List.length R <= n)%nat).
    { subst items. rewrite length_firstn in Hmore. lia. }
    exists [p]. repeat split.
    + cbn [visited flat_map]. rewrite app_nil_r. subst p.
      rewrite nodes_page_of.
      replace (n <? List.length items)%nat with false
        by (symmetry; apply Nat.ltb_ge; lia).
      subst items. apply firstn_all2. lia.
    + exists 0%nat. cbn [map repeat app]. subst p.
      rewrite hasNextPage_page_of.
      f_equal. apply Nat.ltb_ge. lia.
    + constructor; [|constructor]. split.
      * apply length_edges_page_of.
      * reflexivity.
Qed.

(** Starting without a cursor, the walk sees the whole listing. *)
Lemma walk_all :
  serves None L ->
  exists pages,
    walk index term (S (List.length L)) None = Some pages
    /\ visited pages = L
    /\ ends_well pages
    /\ Forall (fun p => (List.length (edges p) <= n)%nat
                        /\ totalCount p = total) pages.
Proof.
  intros Hfirst.
  apply (walk_from _ L [] None); [reflexivity|assumption|lia].
Qed.

End WalkFacts.

(** ** The list handlers on a collection held in memory *)

Section StoreFacts.

Context {globals : Globals} {codec : CursorCodec}
        {engine : RegExpEngine}.

Lemma orders_searchFilter_cases (term : option string) :
  (exists z, z <> 0%Z
             /\ Orders.searchQuery term = Some (JS.Num z)
             /\ Orders.searchFilter term
                = [("archived", CEq (VBool false)); ("batch", CEq (VNum z))])
  \/ (exists b, Orders.searchQuery term = Some (JS.Infinity b)
                /\ Orders.searchFilter term
                   = [("archived", CEq (VBool false));
                      ("batch", CEq (VInfinity b))])
  \/ (Orders.searchFilter term = [("archived", CEq (VBool false))]
      /\ JS.truthy JS.truthy_number (Orders.searchQuery term) = false).
Proof.
  unfold Orders.searchFilter.
  destruct (Orders.searchQuery term) as [[|z|b]|] eqn:E; cbn [JS.truthy];
    try (right; right; split; reflexivity).
  - cbn [JS.truthy_number]. destruct (z =? 0)%Z eqn:Ez; cbn [negb].
    + right. right. split; reflexivity.
    + left. exists z. apply Z.eqb_neq in Ez. repeat split; auto.
  - right. left. exists b. split; reflexivity.
Qed.

Lemma castable_orders_searchFilter (term : option string) :
  castable_obj (Orders.searchFilter term) = true.
Proof.
  destruct (orders_searchFilter_cases term)
    as [(z & _ & _ & ->)|[(b & _ & ->)|[-> _]]]; reflexivity.
Qed.

Lemma products_searchFilter_cases (term : option string) (sf : FilterObj) :
  Products.searchFilter term = Ok sf ->
  sf = [("archived", CEq (VBool false))]
  \/ exists r, sf = [("archived", CEq (VBool false));
                     ("description", CRegExp r)].
Proof.
  unfold Products.searchFilter. destruct (Products.searchQuery term) as [q|].
  - destruct (JS.truthy_string q).
    + unfold newRegExp. destruct (regexCompiles q "i"); cbn; [|discriminate].
      intros [= <-]. right. eexists. reflexivity.
    + cbn. intros [= <-]. now left.
  - cbn. intros [= <-]. now left.
Qed.

Lemma castable_products_searchFilter (term : option string)
      (sf : FilterObj) :
  Products.searchFilter term = Ok sf -> castable_obj sf = true.
Proof.
  intros E. destruct (products_searchFilter_cases _ _ E) as [->|[r ->]];
    reflexivity.
Qed.

Lemma matches_lt (k : string) (id : ObjectId.t) (d : Doc) :
  ObjectId.cast k = Some id ->
  matches_obj [("_id", CLt k)] d = (doc_id d <? id)%N.
Proof.
  intros Hk. unfold matches_obj. cbn [forallb fst snd matches_cond].
  rewrite Hk. change (doc_field d "_id") with (Some (VId (doc_id d))).
  apply andb_true_r.
Qed.

Lemma matches_gt (k : string) (id : ObjectId.t) (d : Doc) :
  ObjectId.cast k = Some id ->
  matches_obj [("_id", CGt k)] d = (id <? doc_id d)%N.
Proof.
  intros Hk. unfold matches_obj. cbn [forallb fst snd matches_cond].
  rewrite Hk. change (doc_field d "_id") with (Some (VId (doc_id d))).
  apply andb_true_r.
Qed.

Lemma filter_matches_and (cf sf : FilterObj) (docs : list Doc) :
  filter (matches (FAnd [cf; sf])) docs
  = filter (matches_obj cf) (filter (matches_obj sf) docs).
Proof.
  rewrite <- filter_and. apply filter_ext. intros d. cbn.
  now rewrite andb_true_r.
Qed.

Lemma run_orders_query (docs : list Doc) (cf sf : FilterObj) :
  run docs (Orders.query cf sf)
  = firstn (Orders.DEFAULT_PAGE_SIZE + 1)
      (filter (matches_obj cf) (sort_by Desc (filter (matches_obj sf) docs))).
Proof.
  unfold run. cbn [Orders.query Mongoose.sort Mongoose.populate
                   Mongoose.limit Mongoose.find q_filter q_sort q_limit].
  now rewrite filter_matches_and, filter_sort_desc.
Qed.

Lemma run_products_query (docs : list Doc) (cf sf : FilterObj) :
  run docs (Products.query cf sf)
  = firstn (Products.DEFAULT_PAGE_SIZE + 1)
      (filter (matches_obj cf) (filter (matches_obj sf) docs)).
Proof.
  unfold run. cbn [Products.query Mongoose.limit Mongoose.find
                   q_filter q_sort q_limit].
  now rewrite filter_matches_and.
Qed.

Lemma filter_all (docs : list Doc) : filter (matches_obj []) docs = docs.
Proof. apply forallb_filter_id. now apply forallb_forall. Qed.

Context {S : Type}.
Variable get : S -> list Doc.
Variable put : list Doc -> S -> S.
Variable validates : Doc -> bool.

Lemma orders_first_page (s : S) (term after : option string) :
  JS.truthy JS.truthy_string after = false ->
  Orders.index (collection get put validates) s
    {| search := term; afterCursor := after |}
  = Send 200 (page_of Orders.DEFAULT_PAGE_SIZE
                (firstn (Orders.DEFAULT_PAGE_SIZE + 1)
                   (orders_listing (get s) term))
                (orders_total (get s) term)).
Proof.
  intros Hafter. rewrite orders_index_eq.
  cbn [search afterCursor].
  assert (Hcf : Orders.cursorFilters after = Ok []).
  { destruct after as [c|]; [|reflexivity]. cbn in Hafter |- *.
    now rewrite Hafter. }
  rewrite Hcf. cbn [bind try_catch exec countDocuments collection].
  cbn [Orders.query Mongoose.sort Mongoose.populate Mongoose.limit
       Mongoose.find q_filter castable forallb castable_obj].
  rewrite castable_orders_searchFilter. cbn [andb bind].
  change (run (get s) _)
    with (run (get s) (Orders.query [] (Orders.searchFilter term))).
  rewrite run_orders_query, filter_all. reflexivity.
Qed.

Lemma orders_next_page (s : S) (term : option string) (k : ObjectId.t) :
  CodecLaws codec -> ObjectId.valid k ->
  Orders.index (collection get put validates) s
    {| search := term;
       afterCursor := Some (encodeCursor (ObjectId.toHexString k)) |}
  = Send 200 (page_of Orders.DEFAULT_PAGE_SIZE
                (firstn (Orders.DEFAULT_PAGE_SIZE + 1)
                   (filter (fun d => (doc_id d <? k)%N)
                      (orders_listing (get s) term)))
                (orders_total (get s) term)).
Proof.
  intros [Hrt Htr] Hk. rewrite orders_index_eq.
  cbn [search afterCursor Orders.cursorFilters].
  rewrite Htr, Hrt. cbn [bind try_catch exec countDocuments collection].
  cbn [Orders.query Mongoose.sort Mongoose.populate Mongoose.limit
       Mongoose.find q_filter castable forallb castable_obj castable_cond
       snd].
  rewrite cast_toHexString by assumption.
  change (forallb (fun kc => castable_cond (snd kc)) (Orders.searchFilter term))
    with (castable_obj (Orders.searchFilter term)).
  rewrite castable_orders_searchFilter. cbn [andb bind].
  change (run (get s) _)
    with (run (get s)
            (Orders.query [("_id", CLt (ObjectId.toHexString k))]
               (Orders.searchFilter term))).
  rewrite run_orders_query.
  rewrite (filter_ext _ (fun d => (doc_id d <? k)%N))
    by (intros d; apply matches_lt; now apply cast_toHexString).
  reflexivity.
Qed.

End StoreFacts.

(** ** The orders listing is walked exhaustively *)

Section OrdersWalk.

Context {globals : Globals} {codec : CursorCodec}
        {engine : RegExpEngine}.

Lemma orders_listing_perm (docs : list Doc) (term : option string) :
  Permutation (orders_listing docs term)
              (filter (matches_obj (Orders.searchFilter term)) docs).
Proof. apply sort_desc_perm. Qed.

Lemma orders_listing_In (docs : list Doc) (term : option string) (d : Doc) :
  In d (orders_listing docs term)
  <-> In d docs /\ matches_obj (Orders.searchFilter term) d = true.
Proof.
  rewrite <- filter_In. split; apply Permutation_in;
    [|symmetry]; apply orders_listing_perm.
Qed.

Lemma NoDup_keys_filter (p : Doc -> bool) (docs : list Doc) :
  NoDup (keys docs) -> NoDup (keys (filter p docs)).
Proof.
  unfold keys. induction docs as [|d docs IH]; intros Hnd; [constructor|].
  cbn in Hnd. apply NoDup_cons_iff in Hnd as [Hd Hnd]. cbn [filter].
  destruct (p d); [|auto]. cbn. constructor; [|auto].
  intros Hin. apply Hd. apply in_map_iff in Hin as (x & Hx & Hin).
  apply filter_In in Hin as [Hin _]. rewrite <- Hx. now apply in_map.
Qed.

Lemma orders_listing_descending (docs : list Doc) (term : option string) :
  NoDup (keys docs) -> descending (orders_listing docs term).
Proof.
  intros Hnd. apply sort_desc_descending. now apply NoDup_keys_filter.
Qed.

Lemma orders_listing_length (docs : list Doc) (term : option string) :
  (List.length (orders_listing docs term) <= List.length docs)%nat.
Proof.
  rewrite (Permutation_length (orders_listing_perm docs term)).
  apply filter_length_le.
Qed.

(** Walking the orders listing visits the records that match the search,
    each once, by decreasing [_id], and ends on a page without a next
    one; every page holds at most 30 edges and reports the same count. *)
Theorem orders_walk_exhaustive (docs : list Doc) (term : option string) :
  CodecLaws codec ->
  well_keyed docs ->
  exists pages,
    walk (Orders.index memory docs) term (S (List.length docs)) None
    = Some pages
    /\ visited pages = orders_listing docs term
    /\ descending (visited pages)
    /\ (forall d, In d (visited pages)
                  <-> In d docs
                      /\ matches_obj (Orders.searchFilter term) d = true)
    /\ ends_well pages
    /\ Forall (fun p => (List.length (edges p) <= Orders.DEFAULT_PAGE_SIZE)%nat
                        /\ totalCount p = orders_total docs term) pages.
Proof.
  intros Hlaws [Hnd Hvalid].
  pose proof (orders_listing_descending docs term Hnd) as Hdesc.
  destruct (walk_from (Orders.index memory docs) term
              Orders.DEFAULT_PAGE_SIZE (orders_total docs term)
              (orders_listing docs term))
    with (fuel := S (List.length docs)) (R := orders_listing docs term)
         (P := @nil Doc) (after := @None string)
    as (pages & Hw & Hv & He & Hb).
  - unfold Orders.DEFAULT_PAGE_SIZE. lia.
  - intros P R d HL.
    assert (Hd : ObjectId.valid (doc_id d)).
    { rewrite Forall_forall in Hvalid. apply Hvalid. apply in_map.
      apply (orders_listing_In docs term). rewrite HL.
      apply in_or_app. right. now left. }
    unfold id_of, memory.
    rewrite (orders_next_page (fun l => l) (fun l _ => l) (fun _ => true))
      by assumption.
    rewrite HL. rewrite descending_after by (rewrite <- HL; assumption).
    reflexivity.
  - reflexivity.
  - unfold memory.
    now apply (orders_first_page (fun l => l) (fun l _ => l) (fun _ => true)).
  - pose proof (orders_listing_length docs term). lia.
  - exists pages. rewrite Hv.
    split; [assumption|]. split; [reflexivity|]. split; [assumption|].
    split; [|split; assumption].
    intros d. apply orders_listing_In.
Qed.

End OrdersWalk.

(** * The claims *)

(** ** C7: the cursor codec *)

(** C7.  Decoding the cursor of a key gives the key back, and decoding
    succeeds on nothing but the cursor of a key: a string that is not the
    encoding of a key (the empty string among them) fails with
    [InvalidCursor], so no input is decoded to a wrong key. *)
Theorem cursor_codec_roundtrip_strict :
  (forall k, Pagination.isKey k = true ->
             Pagination.decodeCursor (Pagination.encodeCursor k) = Ok k)
  /\ (forall id, Pagination.isKey (ObjectId.toHexString id) = true)
  /\ (forall c k, Pagination.decodeCursor c = Ok k ->
                  Pagination.isKey k = true /\ Pagination.encodeCursor k = c)
  /\ (forall c, (forall k, Pagination.isKey k = true ->
                           Pagination.encodeCursor k <> c) ->
                Pagination.decodeCursor c = Throw InvalidCursor)
  /\ Pagination.decodeCursor "" = Throw InvalidCursor
  /\ Pagination.decodeCursor "not-a-valid-cursor" = Throw InvalidCursor.
Proof.
  split; [exact decode_encode_key|].
  split; [exact isKey_toHexString|].
  split; [exact decodeCursor_inv|].
  split; [|split; reflexivity].
  intros c Hc. destruct (Pagination.decodeCursor c) as [k|e] eqn:E.
  - apply decodeCursor_inv in E as [Hk Henc]. now destruct (Hc k Hk).
  - now rewrite (decodeCursor_error c e E).
Qed.

Lemma cursor_codec_roundtrip_strict_witness :
  Pagination.decodeCursor
    (Pagination.encodeCursor "5f9d88b2c3a1e4f6a7b8c9d0")
  = Ok "5f9d88b2c3a1e4f6a7b8c9d0".
Proof.
  exact (proj1 cursor_codec_roundtrip_strict
           "5f9d88b2c3a1e4f6a7b8c9d0" eq_refl).
Defined.

Section Claims.

Context {globals : Globals} {codec : CursorCodec}
        {engine : RegExpEngine} {S : Type}.

(** ** C3: the page is cut after [pageSize] records *)

(** C3.  When the store returns more than [pageSize] records the page
    announces a next page and its edges are the first [pageSize]
    records, in the order returned; otherwise it announces none and
    every record returned is an edge. *)
Theorem overfetch_trimmed (M : Model S) (s : S) (req : Request) :
  (forall cf items total,
      Orders.cursorFilters (afterCursor req) = Ok cf ->
      exec M s (Orders.query cf (Orders.searchFilter (search req)))
      = Ok items ->
      countDocuments M s (Orders.searchFilter (search req)) = Ok total ->
      exists p,
        Orders.index M s req = Send 200 p
        /\ ((30 < List.length items)%nat ->
            hasNextPage (pageInfo p) = true
            /\ map node (edges p) = firstn 30 items)
        /\ ((List.length items <= 30)%nat ->
            hasNextPage (pageInfo p) = false
            /\ map node (edges p) = items))
  /\ (forall sf cf items total,
         Products.searchFilter (search req) = Ok sf ->
         Products.cursorFilters (afterCursor req) = Ok cf ->
         exec M s (Products.query cf sf) = Ok items ->
         countDocuments M s sf = Ok total ->
         exists p,
           Products.index M s req = Send 200 p
           /\ ((29 < List.length items)%nat ->
               hasNextPage (pageInfo p) = true
               /\ map node (edges p) = firstn 29 items)
           /\ ((List.length items <= 29)%nat ->
               hasNextPage (pageInfo p) = false
               /\ map node (edges p) = items)).
Proof.
  split.
  - intros cf items total Hcf Hit Htot.
    exists (page_of Orders.DEFAULT_PAGE_SIZE items total).
    rewrite orders_index_eq, Hcf. cbn [bind]. rewrite Hit. cbn [bind].
    rewrite Htot. split; [reflexivity|].
    rewrite hasNextPage_page_of, nodes_page_of.
    unfold Orders.DEFAULT_PAGE_SIZE.
    split; intros Hlen.
    + apply Nat.ltb_lt in Hlen. rewrite Hlen. now split.
    + apply Nat.ltb_ge in Hlen. rewrite Hlen. now split.
  - intros sf cf items total Hsf Hcf Hit Htot.
    exists (page_of Products.DEFAULT_PAGE_SIZE items total).
    rewrite products_index_eq, Hsf. cbn [bind]. rewrite Hcf. cbn [bind].
    rewrite Hit. cbn [bind]. rewrite Htot. split; [reflexivity|].
    rewrite hasNextPage_page_of, nodes_page_of.
    unfold Products.DEFAULT_PAGE_SIZE.
    split; intros Hlen.
    + apply Nat.ltb_lt in Hlen. rewrite Hlen. now split.
    + apply Nat.ltb_ge in Hlen. rewrite Hlen. now split.
Qed.

(** ** C4: a page holds at most [pageSize] edges *)

(** C4.  Whatever the store returns, a page of orders has at most 30
    edges and a page of products at most 29. *)
Theorem page_size_bound (M : Model S) (s : S) (req : Request)
        (code : nat) (p : Page) :
  (Orders.index M s req = Send code p ->
   (List.length (edges p) <= 30)%nat)
  /\ (Products.index M s req = Send code p ->
      (List.length (edges p) <= 29)%nat).
Proof.
  split; intros E.
  - apply orders_index_send in E as (cf & items & total & _ & _ & _ & _ & ->).
    apply (length_edges_page_of Orders.DEFAULT_PAGE_SIZE).
  - apply products_index_send in E
      as (sf & cf & items & total & _ & _ & _ & _ & _ & ->).
    apply (length_edges_page_of Products.DEFAULT_PAGE_SIZE).
Qed.

(** ** C6: the count does not depend on the cursor *)

(** C6.  The count of a page is the count of the search filter alone:
    two requests with the same search term and different cursors report
    the same [totalCount]. *)
Theorem totalCount_ignores_cursor (M : Model S) (s : S)
        (term c1 c2 : option string) (code1 code2 : nat) (p1 p2 : Page) :
  (Orders.index M s {| search := term; afterCursor := c1 |} = Send code1 p1 ->
   Orders.index M s {| search := term; afterCursor := c2 |} = Send code2 p2 ->
   totalCount p1 = totalCount p2
   /\ countDocuments M s (Orders.searchFilter term) = Ok (totalCount p1))
  /\ (Products.index M s {| search := term; afterCursor := c1 |}
      = Send code1 p1 ->
      Products.index M s {| search := term; afterCursor := c2 |}
      = Send code2 p2 ->
      totalCount p1 = totalCount p2
      /\ exists sf, Products.searchFilter term = Ok sf
                    /\ countDocuments M s sf = Ok (totalCount p1)).
Proof.
  split; intros E1 E2.
  - apply orders_index_send in E1 as (? & ? & t1 & _ & _ & Ht1 & _ & ->).
    apply orders_index_send in E2 as (? & ? & t2 & _ & _ & Ht2 & _ & ->).
    cbn [search] in *. rewrite !totalCount_page_of.
    split; [congruence|assumption].
  - apply products_index_send in E1
      as (sf1 & ? & ? & t1 & Hsf1 & _ & _ & Ht1 & _ & ->).
    apply products_index_send in E2
      as (sf2 & ? & ? & t2 & Hsf2 & _ & _ & Ht2 & _ & ->).
    cbn [search] in *. rewrite !totalCount_page_of.
    assert (sf2 = sf1) by congruence. subst sf2.
    split; [congruence|]. now exists sf1.
Qed.

(** ** C10: a search term that is no number is dropped *)


End Claims.

Section StoreClaims.

Context {globals : Globals} {codec : CursorCodec}
        {engine : RegExpEngine} {S : Type}.
Variable get : S -> list Doc.
Variable put : list Doc -> S -> S.
Variable validates : Doc -> bool.

Lemma cursorFilters_absent (after : option string) :
  after = None \/ after = Some "" ->
  Orders.cursorFilters after = Ok []
  /\ Products.cursorFilters after = Ok [].
Proof. intros [-> | ->]; split; reflexivity. Qed.

Lemma orders_cursorFilters_some (c : string) :
  c <> "" ->
  Orders.cursorFilters (Some c)
  = (k <- decodeCursor c ;; Ok [("_id", CLt k)])%exc.
Proof.
  intros Hc. cbn [Orders.cursorFilters]. unfold JS.truthy_string.
  apply String.eqb_neq in Hc. now rewrite Hc.
Qed.

Lemma products_cursorFilters_some (c : string) :
  c <> "" ->
  Products.cursorFilters (Some c)
  = (k <- decodeCursor c ;; Ok [("_id", CGt k)])%exc.
Proof.
  intros Hc. cbn [Products.cursorFilters]. unfold JS.truthy_string.
  apply String.eqb_neq in Hc. now rewrite Hc.
Qed.

Lemma exec_collection (s : S) (q : Query) (items : list Doc) :
  exec (collection get put validates) s q = Ok items ->
  items = run (get s) q.
Proof.
  cbn [exec collection]. destruct (castable (q_filter q)); congruence.
Qed.

Lemma In_firstn (n : nat) (l : list Doc) (d : Doc) :
  In d (firstn n l) -> In d l.
Proof.
  intros Hd. rewrite <- (firstn_skipn n l). apply in_or_app. now left.
Qed.

Lemma In_nodes_page_of (n : nat) (items : list Doc) (total : nat)
      (e : Edge) :
  In e (edges (page_of n items total)) -> In (node e) items.
Proof.
  intros He. apply (in_map node) in He. rewrite nodes_page_of in He.
  destruct (n <? List.length items)%nat; [|assumption].
  now apply In_firstn in He.
Qed.

(** ** C5: the record of the cursor is not on the page *)

(** C5.  On a request that carries a cursor, every edge of an orders
    page has an [_id] strictly below the key the cursor decodes to, and
    every edge of a products page one strictly above: the record of the
    cursor itself is never among them. *)
Theorem cursor_exclusive (s : S) (term : option string) (c k : string)
        (id : ObjectId.t) (code : nat) (p : Page) :
  c <> "" ->
  decodeCursor c = Ok k ->
  ObjectId.cast k = Some id ->
  (Orders.index (collection get put validates) s
     {| search := term; afterCursor := Some c |} = Send code p ->
   Forall (fun e => (doc_id (node e) < id)%N) (edges p)
   /\ ~ In id (keys (map node (edges p))))
  /\ (Products.index (collection get put validates) s
        {| search := term; afterCursor := Some c |} = Send code p ->
      Forall (fun e => (id < doc_id (node e))%N) (edges p)
      /\ ~ In id (keys (map node (edges p)))).
Proof.
  intros Hc Hdec Hcast.
  assert (Hnot : forall (R : N -> N -> Prop),
             (forall x, ~ R x x) ->
             Forall (fun e => R (doc_id (node e)) id) (edges p) ->
             ~ In id (keys (map node (edges p)))).
  { intros R Hirr Hall Hin. unfold keys in Hin.
    apply in_map_iff in Hin as (d & Hd & Hin).
    apply in_map_iff in Hin as (e & <- & He).
    rewrite Forall_forall in Hall. specialize (Hall e He).
    rewrite Hd in Hall. now apply Hirr in Hall. }
  split; intros E.
  - apply orders_index_send in E as (cf & items & total & Hcf & Hit & _ & _ & ->).
    cbn [afterCursor search] in *.
    rewrite orders_cursorFilters_some, Hdec in Hcf by assumption.
    cbn [bind] in Hcf. injection Hcf as <-.
    apply exec_collection in Hit. rewrite run_orders_query in Hit.
    assert (Hall : Forall (fun e => (doc_id (node e) < id)%N)
                          (edges (page_of Orders.DEFAULT_PAGE_SIZE items total))).
    { apply Forall_forall. intros e He. apply In_nodes_page_of in He.
      rewrite Hit in He. apply In_firstn in He.
      apply filter_In in He as [_ He].
      rewrite (matches_lt k id) in He by assumption.
      now apply N.ltb_lt. }
    split; [exact Hall|].
    apply (Hnot (fun x y => (x < y)%N)); [intros x; lia|exact Hall].
  - apply products_index_send in E
      as (sf & cf & items & total & _ & Hcf & Hit & _ & _ & ->).
    cbn [afterCursor search] in *.
    rewrite products_cursorFilters_some, Hdec in Hcf by assumption.
    cbn [bind] in Hcf. injection Hcf as <-.
    apply exec_collection in Hit. rewrite run_products_query in Hit.
    assert (Hall : Forall (fun e => (id < doc_id (node e))%N)
                          (edges (page_of Products.DEFAULT_PAGE_SIZE items total))).
    { apply Forall_forall. intros e He. apply In_nodes_page_of in He.
      rewrite Hit in He. apply In_firstn in He.
      apply filter_In in He as [_ He].
      rewrite (matches_gt k id) in He by assumption.
      now apply N.ltb_lt. }
    split; [exact Hall|].
    apply (Hnot (fun x y => (y < x)%N)); [intros x; lia|exact Hall].
Qed.

(** ** C8: without a cursor, the first page *)

Lemma products_first_page (s : S) (term after : option string)
      (sf : FilterObj) :
  after = None \/ after = Some "" ->
  Products.searchFilter term = Ok sf ->
  Products.index (collection get put validates) s
    {| search := term; afterCursor := after |}
  = Send 200 (page_of Products.DEFAULT_PAGE_SIZE
                (firstn (Products.DEFAULT_PAGE_SIZE + 1)
                   (filter (matches_obj sf) (get s)))
                (List.length (filter (matches_obj sf) (get s)))).
Proof.
  intros Hafter Hsf. rewrite products_index_eq.
  cbn [search afterCursor]. rewrite Hsf.
  destruct (cursorFilters_absent after Hafter) as [_ ->].
  cbn [bind try_catch exec countDocuments collection].
  cbn [Products.query Mongoose.limit Mongoose.find q_filter castable
       forallb castable_obj].
  change (forallb (fun kc => castable_cond (snd kc)) sf)
    with (castable_obj sf).
  rewrite (castable_products_searchFilter term sf Hsf). cbn [andb bind].
  change (run (get s) _) with (run (get s) (Products.query [] sf)).
  rewrite run_products_query, filter_all. reflexivity.
Qed.

(** C8.  When [afterCursor] is absent or the empty string, the cursor
    filter is the empty object, built without a call to [decodeCursor]
    (the codec is arbitrary here: it may throw on every input), and the
    request is answered with the first page of the records selected by
    the search filter alone. *)
Theorem absent_cursor_first_page (s : S) (term after : option string) :
  after = None \/ after = Some "" ->
  Orders.cursorFilters after = Ok []
  /\ Products.cursorFilters after = Ok []
  /\ Orders.index (collection get put validates) s
       {| search := term; afterCursor := after |}
     = Send 200 (page_of 30 (firstn 31 (orders_listing (get s) term))
                         (orders_total (get s) term))
  /\ (forall sf,
         Products.searchFilter term = Ok sf ->
         Products.index (collection get put validates) s
           {| search := term; afterCursor := after |}
         = Send 200 (page_of 29
                       (firstn 30 (filter (matches_obj sf) (get s)))
                       (List.length (filter (matches_obj sf) (get s))))).
Proof.
  intros Hafter.
  destruct (cursorFilters_absent after Hafter) as [Ho Hp].
  split; [exact Ho|]. split; [exact Hp|]. split.
  - apply orders_first_page. now destruct Hafter as [-> | ->].
  - intros sf Hsf. now apply products_first_page.
Qed.

End StoreClaims.

Section ErrorClaims.

Context {globals : Globals} {codec : CursorCodec}
        {engine : RegExpEngine} {S : Type}.

(** ** C9: an error is answered with status 422 and nothing else *)

(** C9.  When decoding the cursor throws, or the query, or the count,
    (or, for products, the regular expression does not compile,) the
    handler answers status 422; every answer is either that status or a
    whole page: page info, edges and count together. *)
Theorem errors_answer_422 (M : Model S) (s : S) (req : Request) :
  ((forall c e, afterCursor req = Some c -> c <> "" ->
                decodeCursor c = Throw e ->
                Orders.index M s req = SendStatus 422)
   /\ (forall cf e,
          Orders.cursorFilters (afterCursor req) = Ok cf ->
          exec M s (Orders.query cf (Orders.searchFilter (search req)))
          = Throw e ->
          Orders.index M s req = SendStatus 422)
   /\ (forall e,
          countDocuments M s (Orders.searchFilter (search req)) = Throw e ->
          Orders.index M s req = SendStatus 422)
   /\ (Orders.index M s req = SendStatus 422
       \/ exists items total,
            Orders.index M s req = Send 200 (page_of 30 items total)))
  /\ ((forall c e, afterCursor req = Some c -> c <> "" ->
                   decodeCursor c = Throw e ->
                   Products.index M s req = SendStatus 422)
      /\ (forall e, Products.searchFilter (search req) = Throw e ->
                    Products.index M s req = SendStatus 422)
      /\ (forall sf cf e,
             Products.searchFilter (search req) = Ok sf ->
             Products.cursorFilters (afterCursor req) = Ok cf ->
             exec M s (Products.query cf sf) = Throw e ->
             Products.index M s req = SendStatus 422)
      /\ (forall sf e,
             Products.searchFilter (search req) = Ok sf ->
             countDocuments M s sf = Throw e ->
             Products.index M s req = SendStatus 422)
      /\ (Products.index M s req = SendStatus 422
          \/ exists items total,
               Products.index M s req = Send 200 (page_of 29 items total))).
Proof.
  split.
  - rewrite orders_index_eq. repeat split.
    + intros c e -> Hc Hdec.
      rewrite orders_cursorFilters_some, Hdec by assumption. reflexivity.
    + intros cf e -> Hex. cbn [bind]. now rewrite Hex.
    + intros e Hcount.
      destruct (Orders.cursorFilters _) as [cf|]; [|reflexivity].
      cbn [bind]. destruct (exec M s _); [|reflexivity].
      cbn [bind]. now rewrite Hcount.
    + destruct (Orders.cursorFilters _) as [cf|]; [|now left].
      cbn [bind]. destruct (exec M s _) as [items|]; [|now left].
      cbn [bind]. destruct (countDocuments M s _) as [total|]; [|now left].
      right. now exists items, total.
  - rewrite products_index_eq. repeat split.
    + intros c e -> Hc Hdec.
      destruct (Products.searchFilter _); [|reflexivity]. cbn [bind].
      rewrite products_cursorFilters_some, Hdec by assumption. reflexivity.
    + intros e ->. reflexivity.
    + intros sf cf e -> ->. cbn [bind]. now intros ->.
    + intros sf e -> Hcount. cbn [bind].
      destruct (Products.cursorFilters _) as [cf|]; [|reflexivity].
      cbn [bind]. destruct (exec M s _); [|reflexivity].
      cbn [bind]. now rewrite Hcount.
    + destruct (Products.searchFilter _) as [sf|]; [|now left].
      cbn [bind]. destruct (Products.cursorFilters _) as [cf|]; [|now left].
      cbn [bind]. destruct (exec M s _) as [items|]; [|now left].
      cbn [bind]. destruct (countDocuments M s _) as [total|]; [|now left].
      right. now exists items, total.
Qed.

End ErrorClaims.

(** ** C2: the order the query asks for *)

(** C2.  The orders query asks for 31 records sorted by decreasing [_id];
    the products query asks for 30 records and for no sort at all, so its
    edges come in the natural order of the collection: on the collection
    that stores product 2 before product 1 the page lists 2 before 1. *)
Theorem products_query_unsorted :
  (forall cf sf, q_sort (Orders.query cf sf) = Some Desc
                 /\ q_limit (Orders.query cf sf) = Some 31%nat)
  /\ (forall cf sf, q_sort (Products.query cf sf) = None
                    /\ q_limit (Products.query cf sf) = Some 30%nat)
  /\ exists p,
       Products.index memory products21
         {| search := None; afterCursor := None |} = Send 200 p
       /\ keys (map node (edges p)) = [2; 1]%N
       /\ ~ ascending (map node (edges p)).
Proof.
  split; [now split|]. split; [now split|].
  eexists. split; [vm_compute; reflexivity|]. split; [reflexivity|].
  intros Hasc. apply StronglySorted_inv in Hasc as [_ Hall].
  apply Forall_inv in Hall. vm_compute in Hall. discriminate Hall.
Qed.

(** ** C1: walking the pages *)

(** C1.  On the collection that stores the products 1 to 28, then 31, 29
    and 30, all of them matching the empty search, the walk over the
    products listing ends after two pages having seen 1 to 28 and 31
    only: the products 29 and 30 are never visited. *)
Theorem products_walk_skips_records :
  exists pages,
    walk (Products.index memory products31) None
         (S (List.length products31)) None = Some pages
    /\ keys (visited pages) = ids 1 28 ++ [31%N]
    /\ ends_well pages
    /\ Forall (fun p => totalCount p = 31%nat) pages
    /\ In 29%N (keys products31) /\ ~ In 29%N (keys (visited pages))
    /\ In 30%N (keys products31) /\ ~ In 30%N (keys (visited pages)).
Proof.
  eexists. split; [vm_compute; reflexivity|].
  split; [vm_compute; reflexivity|].
  split; [exists 1%nat; reflexivity|].
  split; [repeat constructor|].
  assert (Hin : forall k, In k (keys products31)
                          <-> existsb (N.eqb k) (keys products31) = true).
  { intros k. rewrite existsb_exists. split.
    - intros Hk. exists k. split; [assumption|apply N.eqb_refl].
    - intros (x & Hx & E). apply N.eqb_eq in E. now subst x. }
  split; [apply Hin; reflexivity|].
  split; [vm_compute; intuition discriminate|].
  split; [apply Hin; reflexivity|].
  vm_compute; intuition discriminate.
Qed.

(** ** Witnesses of the claims *)

Lemma overfetch_trimmed_witness :
  exists p,
    Orders.index memory orders65 {| search := None; afterCursor := None |}
    = Send 200 p
    /\ hasNextPage (pageInfo p) = true
    /\ keys (map node (edges p)) = rev (ids 36 30).
Proof.
  destruct (proj1 (overfetch_trimmed memory orders65
                     {| search := None; afterCursor := None |})
              [] (run orders65 (Orders.query [] (Orders.searchFilter None)))
              65%nat eq_refl eq_refl eq_refl)
    as (p & E & Hmore & _).
  exists p. split; [exact E|].
  destruct Hmore as [Hnext Hnodes]; [vm_compute; lia|].
  split; [exact Hnext|]. rewrite Hnodes. vm_compute. reflexivity.
Defined.

Lemma page_size_bound_witness :
  (List.length
     (edges (page_of 30 (firstn 31 (orders_listing orders65 None)) 65))
   <= 30)%nat.
Proof.
  apply (proj1 (page_size_bound memory orders65
                  {| search := None; afterCursor := None |} 200 _)).
  vm_compute. reflexivity.
Defined.

Lemma cursor_exclusive_witness :
  ~ In 36%N
      (keys (map node
               (edges (page_of 30
                         (firstn 31
                            (filter (fun d => (doc_id d <? 36)%N)
                               (orders_listing orders65 None)))
                         65)))).
Proof.
  apply (proj1 (cursor_exclusive (fun l => l) (fun l _ => l) (fun _ => true)
                  orders65 None (cursor_of 36%N) (ObjectId.toHexString 36%N)
                  36%N 200 _
                  ltac:(discriminate) eq_refl eq_refl)).
  vm_compute. reflexivity.
Defined.

Lemma totalCount_ignores_cursor_witness :
  exists p1 p2,
    Orders.index memory orders65 {| search := None; afterCursor := None |}
    = Send 200 p1
    /\ Orders.index memory orders65
         {| search := None; afterCursor := Some (cursor_of 36%N) |}
       = Send 200 p2
    /\ totalCount p1 = totalCount p2.
Proof.
  eexists. eexists.
  assert (E1 : Orders.index memory orders65
                 {| search := None; afterCursor := None |}
               = Send 200 (page_of 30 (firstn 31 (orders_listing orders65 None))
                                   65))
    by (vm_compute; reflexivity).
  assert (E2 : Orders.index memory orders65
                 {| search := None; afterCursor := Some (cursor_of 36%N) |}
               = Send 200 (page_of 30
                             (firstn 31
                                (filter (fun d => (doc_id d <? 36)%N)
                                   (orders_listing orders65 None)))
                             65))
    by (vm_compute; reflexivity).
  split; [exact E1|]. split; [exact E2|].
  exact (proj1 (proj1 (totalCount_ignores_cursor memory orders65 None None
                         (Some (cursor_of 36%N)) 200 200 _ _) E1 E2)).
Defined.

Lemma absent_cursor_first_page_witness :
  Orders.index (codec := deafCodec) memory orders65
    {| search := None; afterCursor := Some "" |}
  = Send 200 (page_of (codec := deafCodec) 30
                (firstn 31 (orders_listing orders65 None))
                (orders_total orders65 None)).
Proof.
  exact (proj1 (proj2 (proj2
           (absent_cursor_first_page (codec := deafCodec)
              (fun l => l) (fun l _ => l) (fun _ => true)
              orders65 None (Some "") (or_intror eq_refl))))).
Defined.

Lemma errors_answer_422_witness :
  Orders.index (unreachable (S := unit)) tt
    {| search := None; afterCursor := None |} = SendStatus 422.
Proof.
  exact (proj1 (proj2 (proj1
           (errors_answer_422 (unreachable (S := unit)) tt
              {| search := None; afterCursor := None |})))
           [] StoreQueryFailed eq_refl eq_refl).
Defined.


(** * Further properties of the resolvers *)

(** ** Objects: reading back what was written *)

Section Objects.

Context {V : Type}.

Lemma lookup_obj_set_eq (o : Obj V) (k : string) (v : V) :
  lookup k (obj_set o k v) = Some v.
Proof.
  induction o as [|[k' v'] o IH]; cbn [obj_set lookup].
  - now rewrite String.eqb_refl.
  - destruct (k' =? k)%string eqn:E; cbn [lookup].
    + now rewrite String.eqb_refl.
    + now rewrite E.
Qed.

Lemma lookup_obj_set_neq (o : Obj V) (k k' : string) (v : V) :
  k' <> k -> lookup k' (obj_set o k v) = lookup k' o.
Proof.
  intros Hk. induction o as [|[j w] o IH]; cbn [obj_set lookup].
  - apply not_eq_sym, String.eqb_neq in Hk. now rewrite Hk.
  - destruct (j =? k)%string eqn:E; cbn [lookup].
    + apply String.eqb_eq in E. subst j.
      apply not_eq_sym, String.eqb_neq in Hk. now rewrite Hk.
    + now rewrite IH.
Qed.

Lemma obj_keys_obj_set (o : Obj V) (k j : string) (v : V) :
  In j (obj_keys (obj_set o k v)) <-> j = k \/ In j (obj_keys o).
Proof.
  unfold obj_keys. induction o as [|[k' v'] o IH]; cbn [obj_set map fst In].
  - intuition.
  - destruct (k' =? k)%string eqn:E; cbn [map fst In].
    + apply String.eqb_eq in E. subst k'. intuition.
    + rewrite IH. intuition.
Qed.

Lemma NoDup_obj_keys_obj_set (o : Obj V) (k : string) (v : V) :
  NoDup (obj_keys o) -> NoDup (obj_keys (obj_set o k v)).
Proof.
  induction o as [|[k' v'] o IH]; intros Hnd; cbn [obj_set].
  - repeat constructor. intros [].
  - change (obj_keys ((k', v') :: o)) with (k' :: obj_keys o) in Hnd.
    apply NoDup_cons_iff in Hnd as [Hk' Hnd].
    destruct (k' =? k)%string eqn:E.
    + apply String.eqb_eq in E. subst k'.
      change (NoDup (k :: obj_keys o)). now constructor.
    + change (NoDup (k' :: obj_keys (obj_set o k v))).
      constructor; [|auto]. rewrite obj_keys_obj_set.
      apply String.eqb_neq in E. intuition.
Qed.

Lemma lookup_obj_merge_other (src o : Obj V) (k : string) :
  ~ In k (obj_keys src) -> lookup k (obj_merge o src) = lookup k o.
Proof.
  unfold obj_merge. revert o.
  induction src as [|[j w] src IH]; intros o Hk; [reflexivity|].
  cbn [fold_left fst snd]. rewrite IH.
  - apply lookup_obj_set_neq. intros ->. apply Hk. now left.
  - intros Hin. apply Hk. now right.
Qed.

Lemma lookup_obj_merge_in (src o : Obj V) (k : string) (v : V) :
  NoDup (obj_keys src) -> In (k, v) src ->
  lookup k (obj_merge o src) = Some v.
Proof.
  unfold obj_merge. revert o.
  induction src as [|[j w] src IH]; intros o Hnd Hin; [destruct Hin|].
  change (obj_keys ((j, w) :: src)) with (j :: obj_keys src) in Hnd.
  apply NoDup_cons_iff in Hnd as [Hj Hnd].
  cbn [fold_left fst snd]. destruct Hin as [[= -> ->]|Hin].
  - fold (obj_merge (obj_set o k v) src).
    rewrite lookup_obj_merge_other by assumption.
    apply lookup_obj_set_eq.
  - now apply IH.
Qed.

Lemma obj_keys_obj_merge (src o : Obj V) (j : string) :
  In j (obj_keys (obj_merge o src))
  <-> In j (obj_keys o) \/ In j (obj_keys src).
Proof.
  unfold obj_merge. revert o.
  induction src as [|[k w] src IH]; intros o; cbn [fold_left fst snd].
  - cbn. intuition.
  - rewrite IH, obj_keys_obj_set. cbn [obj_keys map fst In]. intuition.
Qed.

End Objects.

(** ** Creation: the answers of the two [post] handlers *)

Section AddFacts.

Context {bson : Bson} {S : Type}.

(** Case analysis on the fields read from the body. *)
Ltac fields :=
  repeat match goal with
         | |- context [lookup ?n ?b] =>
             let v := fresh "v" in
             let E := fresh "E" in
             destruct (lookup n b) as [v|] eqn:E;
             [destruct (truthy_value v) eqn:?|]
         end.

(** The orders [post] answers 400 exactly when one of [client], [batch],
    [deliverAt], [items] is missing or falsy; on 400, 422 and 500 the
    store is left as it was. *)
Theorem orders_add_rejects (Order Batch : Model S) (fresh : ObjectId.t)
        (now : Z) (s : S) (req : ItemRequest) :
  (fst (Orders.add Order Batch fresh now s req) = Some (SendStatus 400)
   <-> all_truthy (body req) ["client"; "batch"; "deliverAt"; "items"]
       = false)
  /\ (forall code,
         fst (Orders.add Order Batch fresh now s req)
         = Some (SendStatus code) ->
         (code = 400 \/ code = 422 \/ code = 500)%nat
         /\ snd (Orders.add Order Batch fresh now s req) = s).
Proof.
  unfold Orders.add, all_truthy, truthy, JS.truthy, try_catch, bind.
  cbn [forallb].
  assert (Hcodes : forall c r, (c = 400 \/ c = 422 \/ c = 500)%nat ->
             forall code, Some (@SendStatus string c) = Some (SendStatus code) ->
             (code = 400 \/ code = 422 \/ code = 500)%nat /\ r = r :> S)
    by (intros c r Hc code [= <-]; now split).
  fields; cbn [negb orb andb fst snd];
    try (split; [split; reflexivity|apply Hcodes; auto]).
  destruct (Orders.forEachItem v2) as [items|e]; cbn [fst snd];
    [destruct (save Order s _) as [s1|e]; cbn [fst snd];
     [destruct (findByIdAndUpdate Batch s1 _ _) as [s2|e]; cbn [fst snd]|]|];
    (split; [split; discriminate|]);
    try (intros code; discriminate); apply Hcodes; auto.
Qed.

(** The calls behind an answer with a body. *)
Lemma orders_add_sent (Order Batch : Model S) (fresh : ObjectId.t)
      (now : Z) (s s' : S) (req : ItemRequest) (code : nat) (id : string) :
  Orders.add Order Batch fresh now s req = (Some (Send code id), s') ->
  exists (client batch deliverAt items items' : Value) (s1 : S),
    lookup "client" (body req) = Some client
    /\ lookup "batch" (body req) = Some batch
    /\ lookup "deliverAt" (body req) = Some deliverAt
    /\ lookup "items" (body req) = Some items
    /\ Orders.forEachItem items = Ok items'
    /\ save Order s
         {| doc_id := fresh;
            doc_fields :=
              [("client", client); ("deliverAt", deliverAt);
               ("items", items'); ("batch", batch);
               ("createdAt", VNum now); ("archived", VBool false)] |}
       = Ok s1
    /\ findByIdAndUpdate Batch s1 batch
         (UPush "orders" (VStr (ObjectId.toHexString fresh))) = Ok s'
    /\ code = 201%nat
    /\ id = ObjectId.toHexString fresh.
Proof.
  unfold Orders.add, try_catch, bind. fields; cbn [negb orb];
    try discriminate.
  destruct (Orders.forEachItem v2) as [items|e] eqn:Econv; [|discriminate].
  destruct (save Order s _) as [s1|e] eqn:Esave; [|discriminate].
  destruct (findByIdAndUpdate Batch s1 _ _) as [s2|e] eqn:Eupd;
    [|discriminate].
  intros [= <- <- <-]. exists v, v0, v1, v2, items, s1.
  repeat split; auto.
Qed.

(** The orders [post] answers 201 only after the new order was saved and
    the batch updated: the order saved has the fresh id and is not
    archived, the id answered is the string of that id, and the batch
    named in the body got that string pushed on its [orders]. *)
Theorem orders_add_created (Order Batch : Model S) (fresh : ObjectId.t)
        (now : Z) (s s' : S) (req : ItemRequest) (code : nat) (id : string) :
  Orders.add Order Batch fresh now s req = (Some (Send code id), s') ->
  code = 201%nat
  /\ id = ObjectId.toHexString fresh
  /\ exists (d : Doc) (s1 : S) (batch : Value),
       save Order s d = Ok s1
       /\ doc_id d = fresh
       /\ lookup "archived" (doc_fields d) = Some (VBool false)
       /\ lookup "createdAt" (doc_fields d) = Some (VNum now)
       /\ lookup "client" (doc_fields d) = lookup "client" (body req)
       /\ lookup "batch" (body req) = Some batch
       /\ findByIdAndUpdate Batch s1 batch (UPush "orders" (VStr id))
          = Ok s'.
Proof.
  intros E. apply orders_add_sent in E
    as (client & batch & deliverAt & items & items' & s1
        & Hc & Hb & _ & _ & _ & Hsave & Hupd & -> & ->).
  split; [reflexivity|]. split; [reflexivity|].
  eexists. exists s1, batch. split; [exact Hsave|].
  rewrite Hc. repeat split; auto.
Qed.

(** When the orders [post] sends no response at all, the order was saved
    and the update of the batch threw: the order stays saved. *)
Theorem orders_add_silent (Order Batch : Model S) (fresh : ObjectId.t)
        (now : Z) (s : S) (req : ItemRequest) :
  fst (Orders.add Order Batch fresh now s req) = None ->
  exists (d : Doc) (s1 : S) (batch : Value) (e : Error),
    doc_id d = fresh
    /\ save Order s d = Ok s1
    /\ lookup "batch" (body req) = Some batch
    /\ findByIdAndUpdate Batch s1 batch
         (UPush "orders" (VStr (ObjectId.toHexString fresh))) = Throw e
    /\ snd (Orders.add Order Batch fresh now s req) = s1.
Proof.
  unfold Orders.add, try_catch, bind. fields; cbn [negb orb fst snd];
    try discriminate.
  destruct (Orders.forEachItem v2) as [items|e]; [|discriminate].
  destruct (save Order s _) as [s1|e] eqn:Esave; [|discriminate].
  destruct (findByIdAndUpdate Batch s1 _ _) as [s2|e] eqn:Eupd;
    [discriminate|].
  intros _. eexists. exists s1, v0, e. split; [|split; [exact Esave|]].
  - reflexivity.
  - repeat split; auto.
Qed.

(** When [items] is truthy but no array, or one of its elements cannot be
    converted, the orders [post] answers 422 and nothing is saved. *)
Theorem orders_add_bad_items (Order Batch : Model S) (fresh : ObjectId.t)
        (now : Z) (s : S) (req : ItemRequest) (items : Value) (e : Error) :
  all_truthy (body req) ["client"; "batch"; "deliverAt"; "items"] = true ->
  lookup "items" (body req) = Some items ->
  Orders.forEachItem items = Throw e ->
  Orders.add Order Batch fresh now s req = (Some (SendStatus 422), s).
Proof.
  unfold Orders.add, all_truthy, truthy, JS.truthy, try_catch, bind.
  cbn [forallb]. intros Hall Hitems Hconv. rewrite Hitems in Hall |- *.
  revert Hall. destruct (truthy_value items);
    fields; cbn [negb orb andb]; try discriminate.
  intros _. now rewrite Hconv.
Qed.

Lemma forEachItem_not_array (items : Value) :
  (forall l, items <> VArr l) -> Orders.forEachItem items = Throw TypeError.
Proof.
  intros Hnot. destruct items as [| | | | | |l|]; try reflexivity.
  exfalso. now apply (Hnot l).
Qed.

(** The products [post] answers 400 exactly when one of [description],
    [defaultMeasurementUnit], [conversions] is missing or falsy, and 500
    exactly when the fields are there and [save] throws; both leave the
    store as it was.  It answers 201 with the string of the fresh id
    exactly when [save] succeeded, on a document that is not archived and
    carries the three fields of the body. *)
Theorem products_add_outcomes (Product : Model S) (fresh : ObjectId.t)
        (s : S) (req : ItemRequest) :
  let names := ["description"; "defaultMeasurementUnit"; "conversions"] in
  (all_truthy (body req) names = false ->
   Products.add Product fresh s req = (SendStatus 400, s))
  /\ (all_truthy (body req) names = true ->
      exists d : Doc,
        doc_id d = fresh
        /\ lookup "archived" (doc_fields d) = Some (VBool false)
        /\ (forall n, In n names ->
                      lookup n (doc_fields d) = lookup n (body req))
        /\ Products.add Product fresh s req
           = match save Product s d with
             | Ok s' => (Send 201 (ObjectId.toHexString fresh), s')
             | Throw _ => (SendStatus 500, s)
             end).
Proof.
  unfold Products.add, all_truthy, truthy, JS.truthy, try_catch, bind.
  cbn [forallb]. fields; cbn [negb orb andb]; split;
    try discriminate; try reflexivity.
  intros _. eexists. split; [|split; [|split; [|reflexivity]]].
  - reflexivity.
  - reflexivity.
  - intros n [<-|[<-|[<-|[]]]]; cbn; congruence.
Qed.

End AddFacts.

(** ** Update and archival: what is written *)

Section UpdateFacts.

Context {bson : Bson} {S : Type}.

Ltac fields :=
  repeat match goal with
         | |- context [lookup ?n ?b] =>
             let v := fresh "v" in
             let E := fresh "E" in
             destruct (lookup n b) as [v|] eqn:E;
             [destruct (truthy_value v) eqn:?|]
         end.

Lemma orders_update_set (b : Obj Value) :
  Object_assign []
    [pick "client" (lookup "client" b); pick "batch" (lookup "batch" b);
     pick "deliverAt" (lookup "deliverAt" b); pick "items" (lookup "items" b)]
  = truthy_fields b ["client"; "batch"; "deliverAt"; "items"].
Proof.
  unfold truthy_fields, pick. cbn [flat_map].
  fields; reflexivity.
Qed.

Lemma products_update_set (b : Obj Value) :
  Object_assign []
    [pick "description" (lookup "description" b);
     pick "defaultMeasurementUnit" (lookup "defaultMeasurementUnit" b);
     pick "conversions" (lookup "conversions" b)]
  = truthy_fields b ["description"; "defaultMeasurementUnit"; "conversions"].
Proof.
  unfold truthy_fields, pick. cbn [flat_map].
  fields; reflexivity.
Qed.

Lemma truthy_fields_empty (b : Obj Value) (names : list string) :
  (0 <? List.length (truthy_fields b names))%nat = some_truthy b names.
Proof.
  unfold truthy_fields, some_truthy, truthy, JS.truthy, pick.
  induction names as [|n names IH]; [reflexivity|].
  cbn [flat_map existsb]. destruct (lookup n b) as [v|].
  - destruct (truthy_value v); [reflexivity|exact IH].
  - exact IH.
Qed.

Lemma truthy_fields_In (b : Obj Value) (names : list string)
      (n : string) (v : Value) :
  In (n, v) (truthy_fields b names)
  <-> In n names /\ lookup n b = Some v /\ truthy_value v = true.
Proof.
  unfold truthy_fields, pick. rewrite in_flat_map. split.
  - intros (m & Hm & Hin). destruct (lookup m b) as [w|] eqn:E; [|destruct Hin].
    destruct (truthy_value w) eqn:T; [|destruct Hin].
    destruct Hin as [[= <- <-]|[]]. auto.
  - intros (Hn & Hl & Ht). exists n. split; [assumption|].
    rewrite Hl, Ht. now left.
Qed.

Lemma obj_keys_truthy_fields (b : Obj Value) (names : list string)
      (n : string) :
  In n (obj_keys (truthy_fields b names)) -> In n names.
Proof.
  unfold obj_keys. intros Hn. apply in_map_iff in Hn as ([m v] & <- & Hin).
  now apply truthy_fields_In in Hin.
Qed.

Lemma NoDup_truthy_fields (b : Obj Value) (names : list string) :
  NoDup names -> NoDup (obj_keys (truthy_fields b names)).
Proof.
  induction names as [|n names IH]; intros Hnd; [constructor|].
  apply NoDup_cons_iff in Hnd as [Hn Hnd].
  unfold truthy_fields. cbn [flat_map]. fold (truthy_fields b names).
  unfold pick. destruct (lookup n b) as [v|]; [|now apply IH].
  destruct (truthy_value v); [|now apply IH].
  cbn [app]. change (NoDup (n :: obj_keys (truthy_fields b names))).
  constructor; [|now apply IH].
  intros Hin. now apply obj_keys_truthy_fields in Hin.
Qed.

(** The two [put] handlers, branch by branch. *)
Lemma orders_update_eq (Order : Model S) (s : S) (req : ItemRequest) :
  Orders.update Order s req
  = if some_truthy (body req) ["client"; "batch"; "deliverAt"; "items"]
    then match newObjectId (Some (VStr (params_id req))) with
         | Ok oid =>
             match updateOne Order s [("_id", CEq (VId oid))]
                     (USet (truthy_fields (body req)
                              ["client"; "batch"; "deliverAt"; "items"])) with
             | Ok s' => (SendStatus 200, s')
             | Throw _ => (SendStatus 422, s)
             end
         | Throw _ => (SendStatus 422, s)
         end
    else (SendStatus 400, s).
Proof.
  unfold Orders.update. rewrite orders_update_set, truthy_fields_empty.
  destruct (some_truthy _ _); [|reflexivity].
  unfold try_catch, bind.
  destruct (newObjectId _) as [oid|]; [|reflexivity].
  now destruct (updateOne Order s _ _).
Qed.

Lemma products_update_eq (Product : Model S) (s : S) (req : ItemRequest) :
  Products.update Product s req
  = if some_truthy (body req)
         ["description"; "defaultMeasurementUnit"; "conversions"]
    then match newObjectId (Some (VStr (params_id req))) with
         | Ok oid =>
             match updateOne Product s [("_id", CEq (VId oid))]
                     (USet (truthy_fields (body req)
                              ["description"; "defaultMeasurementUnit";
                               "conversions"])) with
             | Ok s' => (SendStatus 200, s')
             | Throw _ => (SendStatus 422, s)
             end
         | Throw _ => (SendStatus 422, s)
         end
    else (SendStatus 400, s).
Proof.
  unfold Products.update. rewrite products_update_set, truthy_fields_empty.
  destruct (some_truthy _ _); [|reflexivity].
  unfold try_catch, bind.
  destruct (newObjectId _) as [oid|]; [|reflexivity].
  now destruct (updateOne Product s _ _).
Qed.

(** The orders [put] answers 400, without looking at the id or at the
    store, exactly when none of [client], [batch], [deliverAt], [items]
    has a truthy value in the body; otherwise it asks the store to set
    the truthy ones, and only them, on the document of that id, and
    answers 200, or 422 when the id is refused or the store throws. *)
Theorem orders_update_outcomes (Order : Model S) (s : S)
        (req : ItemRequest) :
  let names := ["client"; "batch"; "deliverAt"; "items"] in
  (some_truthy (body req) names = false <->
   Orders.update Order s req = (SendStatus 400, s))
  /\ (some_truthy (body req) names = true ->
      Orders.update Order s req
      = match newObjectId (Some (VStr (params_id req))) with
        | Ok oid =>
            match updateOne Order s [("_id", CEq (VId oid))]
                    (USet (truthy_fields (body req) names)) with
            | Ok s' => (SendStatus 200, s')
            | Throw _ => (SendStatus 422, s)
            end
        | Throw _ => (SendStatus 422, s)
        end).
Proof.
  intros names. rewrite orders_update_eq. fold names.
  destruct (some_truthy (body req) names).
  - split; [|reflexivity]. split; [discriminate|].
    destruct (newObjectId _) as [oid|]; [|discriminate].
    destruct (updateOne Order s _ _); discriminate.
  - split; [|discriminate]. now split.
Qed.

(** The products [put]: as for orders, over [description],
    [defaultMeasurementUnit] and [conversions]. *)
Theorem products_update_outcomes (Product : Model S) (s : S)
        (req : ItemRequest) :
  let names := ["description"; "defaultMeasurementUnit"; "conversions"] in
  (some_truthy (body req) names = false <->
   Products.update Product s req = (SendStatus 400, s))
  /\ (some_truthy (body req) names = true ->
      Products.update Product s req
      = match newObjectId (Some (VStr (params_id req))) with
        | Ok oid =>
            match updateOne Product s [("_id", CEq (VId oid))]
                    (USet (truthy_fields (body req) names)) with
            | Ok s' => (SendStatus 200, s')
            | Throw _ => (SendStatus 422, s)
            end
        | Throw _ => (SendStatus 422, s)
        end).
Proof.
  intros names. rewrite products_update_eq. fold names.
  destruct (some_truthy (body req) names).
  - split; [|reflexivity]. split; [discriminate|].
    destruct (newObjectId _) as [oid|]; [|discriminate].
    destruct (updateOne Product s _ _); discriminate.
  - split; [|discriminate]. now split.
Qed.

End UpdateFacts.

(** ** Update, archival and lookup on a collection held in memory *)

Section MemoryFacts.

Context {globals : Globals} {codec : CursorCodec}
        {engine : RegExpEngine} {bson : Bson}.

Lemma matches_id (k : ObjectId.t) (d : Doc) :
  matches_obj [("_id", CEq (VId k))] d = (k =? doc_id d)%N.
Proof.
  unfold matches_obj. cbn [forallb fst snd matches_cond].
  change (doc_field d "_id") with (Some (VId (doc_id d))).
  cbn [Value_eqb]. apply andb_true_r.
Qed.

Lemma updated_absent (k : ObjectId.t) (fields : Obj Value)
      (docs : list Doc) :
  ~ In k (keys docs) -> updated k fields docs = docs.
Proof.
  unfold updated, keys. induction docs as [|d docs IH]; intros Hk;
    [reflexivity|].
  cbn [map] in *. rewrite IH by (intros Hin; apply Hk; now right).
  destruct (k =? doc_id d)%N eqn:E; [|reflexivity].
  apply N.eqb_eq in E. destruct Hk. now left.
Qed.

Lemma update_first_unique (k : ObjectId.t) (fields : Obj Value)
      (docs : list Doc) :
  NoDup (keys docs) ->
  update_first (matches_obj [("_id", CEq (VId k))]) (USet fields) docs
  = Ok (updated k fields docs).
Proof.
  unfold keys. induction docs as [|d docs IH]; intros Hnd; [reflexivity|].
  cbn [map] in Hnd. apply NoDup_cons_iff in Hnd as [Hd Hnd].
  cbn [update_first]. rewrite matches_id. unfold updated. cbn [map].
  destruct (k =? doc_id d)%N eqn:E.
  - apply N.eqb_eq in E. subst k. cbn [apply_update bind].
    fold (updated (doc_id d) fields docs).
    now rewrite updated_absent.
  - rewrite IH by assumption. reflexivity.
Qed.

Lemma keys_updated (k : ObjectId.t) (fields : Obj Value) (docs : list Doc) :
  keys (updated k fields docs) = keys docs.
Proof.
  unfold keys, updated. rewrite map_map. apply map_ext.
  intros d. now destruct (k =? doc_id d)%N.
Qed.

Lemma In_updated (k : ObjectId.t) (fields : Obj Value) (docs : list Doc)
      (d' : Doc) :
  In d' (updated k fields docs)
  <-> exists d, In d docs
                /\ d' = if (k =? doc_id d)%N then set_fields fields d else d.
Proof.
  unfold updated. rewrite in_map_iff. split; intros (d & H1 & H2);
    exists d; auto.
Qed.

Lemma updateOne_memory (k : ObjectId.t) (fields : Obj Value)
      (docs : list Doc) :
  NoDup (keys docs) ->
  updateOne memory docs [("_id", CEq (VId k))] (USet fields)
  = Ok (updated k fields docs).
Proof.
  intros Hnd. cbn [updateOne memory collection castable_obj forallb
                   castable_cond snd andb].
  now rewrite update_first_unique.
Qed.

Lemma orders_archive_memory (docs : list Doc) (req : ItemRequest)
      (k : ObjectId.t) :
  NoDup (keys docs) ->
  newObjectId (Some (VStr (params_id req))) = Ok k ->
  Orders.archive memory docs req
  = (SendStatus 200, updated k [("archived", VBool true)] docs).
Proof.
  intros Hnd Hid. unfold Orders.archive. rewrite Hid. cbn [bind].
  now rewrite updateOne_memory.
Qed.

Lemma products_archive_memory (docs : list Doc) (req : ItemRequest)
      (k : ObjectId.t) :
  NoDup (keys docs) ->
  newObjectId (Some (VStr (params_id req))) = Ok k ->
  Products.archive memory docs req
  = (SendStatus 200, updated k [("archived", VBool true)] docs).
Proof.
  intros Hnd Hid. unfold Products.archive. rewrite Hid. cbn [bind].
  now rewrite updateOne_memory.
Qed.

Lemma archived_in_updated (k : ObjectId.t) (docs : list Doc) (d' : Doc) :
  In d' (updated k [("archived", VBool true)] docs) ->
  doc_id d' = k ->
  archived d' = Some (VBool true).
Proof.
  intros Hd' Hk. apply In_updated in Hd' as (d & Hd & ->).
  destruct (k =? doc_id d)%N eqn:E.
  - unfold archived, set_fields. cbn [doc_fields].
    apply lookup_obj_merge_in; [repeat constructor; intros []|now left].
  - apply N.eqb_neq in E. now destruct E.
Qed.

Lemma In_updated_other (k : ObjectId.t) (fields : Obj Value)
      (docs : list Doc) (d : Doc) :
  In d docs -> doc_id d <> k -> In d (updated k fields docs).
Proof.
  intros Hd Hk. apply In_updated. exists d. split; [assumption|].
  replace (k =? doc_id d)%N with false; [reflexivity|].
  symmetry. apply N.eqb_neq. congruence.
Qed.

Lemma In_updated_same (k : ObjectId.t) (fields : Obj Value)
      (docs : list Doc) (d : Doc) :
  In d docs -> doc_id d = k -> In (set_fields fields d) (updated k fields docs).
Proof.
  intros Hd Hk. apply In_updated. exists d. split; [assumption|].
  replace (k =? doc_id d)%N with true; [reflexivity|].
  symmetry. apply N.eqb_eq. congruence.
Qed.

Lemma obj_set_twice (o : Obj Value) (n : string) (v : Value) :
  obj_set (obj_set o n v) n v = obj_set o n v.
Proof.
  induction o as [|[j w] o IH]; cbn [obj_set].
  - now rewrite String.eqb_refl.
  - destruct (j =? n)%string eqn:Ej; cbn [obj_set].
    + now rewrite String.eqb_refl.
    + rewrite Ej. now rewrite IH.
Qed.

Lemma updated_twice (k : ObjectId.t) (n : string) (v : Value)
      (docs : list Doc) :
  updated k [(n, v)] (updated k [(n, v)] docs) = updated k [(n, v)] docs.
Proof.
  unfold updated. rewrite map_map. apply map_ext. intros d.
  destruct (k =? doc_id d)%N eqn:E.
  - cbn [set_fields doc_id]. rewrite E.
    unfold set_fields, obj_merge. cbn [doc_id doc_fields fold_left fst snd].
    now rewrite obj_set_twice.
  - now rewrite E.
Qed.

(** Archiving answers 200 whether or not a document has the id; it sets
    [archived] on the document of that id and on nothing else, and
    archiving again changes nothing more. *)
Theorem archive_effect (docs : list Doc) (req : ItemRequest)
        (k : ObjectId.t) :
  NoDup (keys docs) ->
  newObjectId (Some (VStr (params_id req))) = Ok k ->
  let docs' := updated k [("archived", VBool true)] docs in
  Orders.archive memory docs req = (SendStatus 200, docs')
  /\ Products.archive memory docs req = (SendStatus 200, docs')
  /\ keys docs' = keys docs
  /\ (forall d', In d' docs' -> doc_id d' = k ->
                 archived d' = Some (VBool true))
  /\ (forall d, In d docs -> doc_id d <> k -> In d docs')
  /\ (~ In k (keys docs) -> docs' = docs)
  /\ Orders.archive memory docs' req = (SendStatus 200, docs').
Proof.
  intros Hnd Hid docs'.
  split; [now apply orders_archive_memory|].
  split; [now apply products_archive_memory|].
  split; [apply keys_updated|].
  split; [intros d'; apply archived_in_updated|].
  split; [intros d; apply In_updated_other|].
  split; [apply updated_absent|].
  rewrite (orders_archive_memory docs' req k)
    by (subst docs'; now rewrite ?keys_updated).
  subst docs'. now rewrite updated_twice.
Qed.

(** An update that goes through changes the picked fields of the
    document of that id and nothing else: the ids, every other document,
    and every field the body does not give a truthy value stay as they
    were; in particular an update never touches [archived]. *)
Theorem orders_update_effect (docs : list Doc) (req : ItemRequest)
        (k : ObjectId.t) :
  NoDup (keys docs) ->
  newObjectId (Some (VStr (params_id req))) = Ok k ->
  some_truthy (body req) ["client"; "batch"; "deliverAt"; "items"] = true ->
  exists docs',
    Orders.update memory docs req = (SendStatus 200, docs')
    /\ keys docs' = keys docs
    /\ map archived docs' = map archived docs
    /\ (forall d, In d docs -> doc_id d <> k -> In d docs')
    /\ (forall d', In d' docs' -> doc_id d' = k ->
          forall n v, In n ["client"; "batch"; "deliverAt"; "items"] ->
                      lookup n (body req) = Some v ->
                      truthy_value v = true ->
                      lookup n (doc_fields d') = Some v).
Proof.
  intros Hnd Hid Hsome.
  set (names := ["client"; "batch"; "deliverAt"; "items"]) in *.
  exists (updated k (truthy_fields (body req) names) docs).
  split; [|split; [|split; [|split]]].
  - rewrite orders_update_eq. fold names.
    rewrite Hsome, Hid. now rewrite updateOne_memory.
  - apply keys_updated.
  - unfold updated. rewrite map_map. apply map_ext. intros d.
    destruct (k =? doc_id d)%N; [|reflexivity].
    unfold archived, set_fields. cbn [doc_fields].
    apply lookup_obj_merge_other. intros Hin.
    apply obj_keys_truthy_fields in Hin.
    destruct Hin as [E|[E|[E|[E|[]]]]]; discriminate E.
  - intros d Hd Hk. apply In_updated. exists d. split; [assumption|].
    replace (k =? doc_id d)%N with false; [reflexivity|].
    symmetry. apply N.eqb_neq. congruence.
  - intros d' Hd' Hk n v Hn Hl Ht.
    apply In_updated in Hd' as (d & Hd & ->).
    destruct (k =? doc_id d)%N eqn:E.
    + unfold set_fields. cbn [doc_fields].
      apply lookup_obj_merge_in.
      * apply NoDup_truthy_fields. subst names.
        repeat constructor; cbn; intuition discriminate.
      * apply truthy_fields_In. auto.
    + apply N.eqb_neq in E. now destruct E.
Qed.

Lemma find_id_absent (k : ObjectId.t) (docs : list Doc) :
  ~ In k (keys docs) -> find (fun d => (doc_id d =? k)%N) docs = None.
Proof.
  unfold keys. induction docs as [|x docs IH]; intros Hk; [reflexivity|].
  cbn [find map] in *. destruct (doc_id x =? k)%N eqn:E.
  - apply N.eqb_eq in E. destruct Hk. now left.
  - apply IH. intros Hin. apply Hk. now right.
Qed.

Lemma find_id_present (docs : list Doc) (d : Doc) :
  NoDup (keys docs) -> In d docs ->
  find (fun x => (doc_id x =? doc_id d)%N) docs = Some d.
Proof.
  unfold keys. induction docs as [|x docs IH]; intros Hnd Hd; [destruct Hd|].
  cbn [map] in Hnd. apply NoDup_cons_iff in Hnd as [Hx Hnd].
  cbn [find]. destruct (doc_id x =? doc_id d)%N eqn:E.
  - apply N.eqb_eq in E. destruct Hd as [->|Hd]; [reflexivity|].
    destruct Hx. rewrite E. now apply in_map.
  - destruct Hd as [->|Hd]; [|now apply IH].
    apply N.eqb_neq in E. now destruct E.
Qed.

Lemma get_memory (docs : list Doc) (req : ItemRequest) :
  Orders.get memory docs req
  = match ObjectId.cast (params_id req) with
    | Some k => Send 200 (find (fun d => (doc_id d =? k)%N) docs)
    | None => SendStatus 422
    end
  /\ Products.get memory docs req = Orders.get memory docs req.
Proof.
  unfold Orders.get, Products.get. cbn [findById memory collection].
  now destruct (ObjectId.cast (params_id req)).
Qed.

(** Looking a document up by id: 422 when the id cannot be cast to an
    object id; status 200 with [null] when no document has the id; and
    when a document has it, archived or not: for a product that document,
    for an order a document with the same [_id] and the same fields
    outside the populated paths [items] and [batch]. *)
Theorem get_outcomes (docs : list Doc) (req : ItemRequest) :
  (ObjectId.cast (params_id req) = None ->
   Orders.get memory docs req = SendStatus 422
   /\ Products.get memory docs req = SendStatus 422)
  /\ (forall k, ObjectId.cast (params_id req) = Some k ->
        (~ In k (keys docs) ->
         Orders.get memory docs req = Send 200 None
         /\ Products.get memory docs req = Send 200 None)
        /\ (forall d, NoDup (keys docs) -> In d docs -> doc_id d = k ->
              (exists d',
                 Orders.get memory docs req = Send 200 (Some d')
                 /\ doc_id d' = k
                 /\ forall f, f <> "items" -> f <> "batch" ->
                       lookup f (doc_fields d') = lookup f (doc_fields d))
              /\ Products.get memory docs req = Send 200 (Some d))).
Proof.
  destruct (get_memory docs req) as [Ho Hp]. rewrite Hp, Ho. split.
  - intros ->. now split.
  - intros k ->. split.
    + intros Hk. rewrite find_id_absent by assumption. now split.
    + intros d Hnd Hd <-. rewrite find_id_present by assumption.
      split; [|reflexivity]. exists d. repeat split.
Qed.

End MemoryFacts.

(** ** What a page lists *)

Section ListFacts.

Context {globals : Globals} {codec : CursorCodec}
        {engine : RegExpEngine}.

Lemma run_orders_In (docs : list Doc) (cf sf : FilterObj) (d : Doc) :
  In d (run docs (Orders.query cf sf)) ->
  In d docs /\ matches_obj sf d = true /\ matches_obj cf d = true.
Proof.
  rewrite run_orders_query. intros Hd. apply In_firstn in Hd.
  apply filter_In in Hd as [Hd Hcf].
  apply (Permutation_in _ (sort_desc_perm _)) in Hd.
  apply filter_In in Hd as [Hd Hsf]. auto.
Qed.

Lemma run_products_In (docs : list Doc) (cf sf : FilterObj) (d : Doc) :
  In d (run docs (Products.query cf sf)) ->
  In d docs /\ matches_obj sf d = true /\ matches_obj cf d = true.
Proof.
  rewrite run_products_query. intros Hd. apply In_firstn in Hd.
  apply filter_In in Hd as [Hd Hcf].
  apply filter_In in Hd as [Hd Hsf]. auto.
Qed.

Lemma Value_eqb_bool (b : bool) (w : Value) :
  Value_eqb (VBool b) w = true -> w = VBool b.
Proof.
  destruct w; cbn; try discriminate. intros E.
  apply Bool.eqb_prop in E. now subst.
Qed.

Lemma Value_eqb_num (z : Z) (w : Value) :
  Value_eqb (VNum z) w = true -> w = VNum z.
Proof.
  destruct w; cbn; try discriminate. intros E.
  apply Z.eqb_eq in E. now subst.
Qed.

Lemma matches_live (rest : FilterObj) (d : Doc) :
  matches_obj (("archived", CEq (VBool false)) :: rest) d = true ->
  archived d = Some (VBool false) /\ matches_obj rest d = true.
Proof.
  unfold matches_obj. cbn [forallb fst snd matches_cond].
  change (doc_field d "archived") with (archived d).
  intros H. apply andb_true_iff in H as [H1 H2]. split; [|exact H2].
  destruct (archived d) as [w|]; [|discriminate].
  now rewrite (Value_eqb_bool _ _ H1).
Qed.

Lemma orders_edges_match (docs : list Doc) (req : Request) (code : nat)
      (p : Page) :
  Orders.index memory docs req = Send code p ->
  Forall (fun e =>
            In (node e) docs
            /\ matches_obj (Orders.searchFilter (search req)) (node e) = true)
         (edges p).
Proof.
  intros E. apply orders_index_send in E
    as (cf & items & total & _ & Hit & _ & _ & ->).
  apply exec_collection in Hit. subst items.
  apply Forall_forall. intros e He. apply In_nodes_page_of in He.
  apply run_orders_In in He as (Hin & Hsf & _). now split.
Qed.

Lemma products_edges_match (docs : list Doc) (req : Request) (code : nat)
      (p : Page) :
  Products.index memory docs req = Send code p ->
  exists sf,
    Products.searchFilter (search req) = Ok sf
    /\ Forall (fun e => In (node e) docs /\ matches_obj sf (node e) = true)
              (edges p).
Proof.
  intros E. apply products_index_send in E
    as (sf & cf & items & total & Hsf & _ & Hit & _ & _ & ->).
  apply exec_collection in Hit. subst items.
  exists sf. split; [exact Hsf|].
  apply Forall_forall. intros e He. apply In_nodes_page_of in He.
  apply run_products_In in He as (Hin & Hm & _). now split.
Qed.

Lemma orders_edges_live (docs : list Doc) (req : Request) (code : nat)
      (p : Page) :
  Orders.index memory docs req = Send code p ->
  Forall (fun e => In (node e) docs
                   /\ archived (node e) = Some (VBool false))
         (edges p).
Proof.
  intros E. apply orders_edges_match in E.
  eapply Forall_impl; [|exact E]. cbv beta. intros e [Hin Hsf].
  split; [exact Hin|].
  destruct (orders_searchFilter_cases (search req))
    as [(z & _ & _ & Hf)|[(b & _ & Hf)|[Hf _]]]; rewrite Hf in Hsf;
    now apply matches_live in Hsf.
Qed.

Lemma products_edges_live (docs : list Doc) (req : Request) (code : nat)
      (p : Page) :
  Products.index memory docs req = Send code p ->
  Forall (fun e => In (node e) docs
                   /\ archived (node e) = Some (VBool false))
         (edges p).
Proof.
  intros E. apply products_edges_match in E as (sf & Hsf & E).
  eapply Forall_impl; [|exact E]. cbv beta. intros e [Hin Hm].
  split; [exact Hin|].
  destruct (products_searchFilter_cases _ _ Hsf) as [->|[r ->]];
    now apply matches_live in Hm.
Qed.

(** A page lists records that are not archived.  A node of a page of
    orders carries the [_id] of a stored order, and when the search term
    parses to a number other than 0 that stored order has this number as
    its [batch]; a node of a page of products is a stored product. *)
Theorem listed_are_live (docs : list Doc) (req : Request) (code : nat)
        (p : Page) :
  (Orders.index memory docs req = Send code p ->
   Forall (fun e =>
             archived (node e) = Some (VBool false)
             /\ exists d,
                  In d docs
                  /\ doc_id d = doc_id (node e)
                  /\ forall z,
                       Orders.searchQuery (search req) = Some (JS.Num z) ->
                       z <> 0%Z ->
                       lookup "batch" (doc_fields d) = Some (VNum z))
          (edges p))
  /\ (Products.index memory docs req = Send code p ->
      Forall (fun e => In (node e) docs
                       /\ archived (node e) = Some (VBool false))
             (edges p)).
Proof.
  split; [|apply products_edges_live]. intros E.
  pose proof (orders_edges_live _ _ _ _ E) as Hlive.
  apply orders_edges_match in E.
  rewrite Forall_forall in *. intros e He.
  destruct (Hlive e He) as [Hin Ha]. destruct (E e He) as [_ Hsf].
  split; [exact Ha|]. exists (node e).
  split; [exact Hin|]. split; [reflexivity|].
  intros z Hq Hz.
  destruct (orders_searchFilter_cases (search req))
    as [(z' & _ & Hq' & Hf)|[(b & Hq' & _)|[_ Hq']]].
  - rewrite Hq in Hq'. injection Hq' as <-. rewrite Hf in Hsf.
    apply matches_live in Hsf as [_ Hrest].
    unfold matches_obj in Hrest. cbn [forallb fst snd matches_cond] in Hrest.
    change (doc_field (node e) "batch")
      with (lookup "batch" (doc_fields (node e))) in Hrest.
    destruct (lookup "batch" (doc_fields (node e))) as [w|]; [|discriminate].
    apply andb_true_iff in Hrest as [Hw _].
    now rewrite (Value_eqb_num _ _ Hw).
  - rewrite Hq in Hq'. discriminate.
  - rewrite Hq in Hq'. cbn in Hq'.
    apply negb_false_iff, Z.eqb_eq in Hq'. contradiction.
Qed.

(** Once archived, a record is on no page of the listing, whatever the
    search term and the cursor. *)
Theorem archived_not_listed {bson : Bson} (docs docs' : list Doc)
        (item : ItemRequest) (k : ObjectId.t) (req : Request) (code : nat)
        (p : Page) :
  NoDup (keys docs) ->
  newObjectId (Some (VStr (params_id item))) = Ok k ->
  (Orders.archive memory docs item = (SendStatus 200, docs') ->
   Orders.index memory docs' req = Send code p ->
   ~ In k (keys (map node (edges p))))
  /\ (Products.archive memory docs item = (SendStatus 200, docs') ->
      Products.index memory docs' req = Send code p ->
      ~ In k (keys (map node (edges p)))).
Proof.
  intros Hnd Hid.
  assert (Hgen : docs' = updated k [("archived", VBool true)] docs ->
                 Forall (fun e => In (node e) docs'
                                  /\ archived (node e) = Some (VBool false))
                        (edges p) ->
                 ~ In k (keys (map node (edges p)))).
  { intros -> Hall Hin. unfold keys in Hin.
    apply in_map_iff in Hin as (d & Hd & Hin).
    apply in_map_iff in Hin as (e & <- & He).
    rewrite Forall_forall in Hall. destruct (Hall e He) as [Hn Hlive].
    rewrite (archived_in_updated k docs (node e) Hn Hd) in Hlive.
    discriminate. }
  split; intros Ha Hi; apply Hgen.
  - rewrite (orders_archive_memory docs item k Hnd Hid) in Ha. congruence.
  - now apply orders_edges_live in Hi.
  - rewrite (products_archive_memory docs item k Hnd Hid) in Ha. congruence.
  - now apply products_edges_live in Hi.
Qed.

Lemma firstn_descending (n : nat) (l : list Doc) :
  descending l -> descending (firstn n l).
Proof.
  unfold descending. revert n.
  induction l as [|x l IH]; intros n Hs; [now rewrite firstn_nil|].
  destruct n as [|n]; [constructor|]. cbn [firstn].
  apply StronglySorted_inv in Hs as [Hs Hall].
  constructor; [auto|]. rewrite Forall_forall in *.
  intros y Hy. apply Hall. now apply In_firstn in Hy.
Qed.

(** The edges of a page of orders come by strictly decreasing [_id],
    whatever the natural order of the collection. *)
Theorem orders_page_descending (docs : list Doc) (req : Request)
        (code : nat) (p : Page) :
  NoDup (keys docs) ->
  Orders.index memory docs req = Send code p ->
  descending (map node (edges p)).
Proof.
  intros Hnd E.
  apply orders_index_send in E as (cf & items & total & _ & Hit & _ & _ & ->).
  apply exec_collection in Hit. rewrite run_orders_query in Hit.
  assert (Hitems : descending items).
  { subst items. apply firstn_descending, filter_descending.
    now apply orders_listing_descending. }
  rewrite nodes_page_of.
  destruct (_ <? _)%nat; [now apply firstn_descending|assumption].
Qed.

(** Records inserted while a client walks the orders do not disturb the
    walk: when every new record has an [_id] at or above the key of the
    cursor, the page after that cursor has the same edges and the same
    page info as before the insertion. *)
Theorem orders_page_stable_under_inserts (docs added : list Doc)
        (term : option string) (c k : string) (id : ObjectId.t) :
  c <> "" ->
  decodeCursor c = Ok k ->
  ObjectId.cast k = Some id ->
  Forall (fun d => (id <= doc_id d)%N) added ->
  exists items total total',
    Orders.index memory docs {| search := term; afterCursor := Some c |}
    = Send 200 (page_of 30 items total)
    /\ Orders.index memory (docs ++ added)
         {| search := term; afterCursor := Some c |}
       = Send 200 (page_of 30 items total').
Proof.
  intros Hc Hdec Hcast Hadded.
  assert (Hpage : forall l,
             Orders.index memory l {| search := term; afterCursor := Some c |}
             = Send 200 (page_of 30
                           (run l (Orders.query [("_id", CLt k)]
                                     (Orders.searchFilter term)))
                           (orders_total l term))).
  { intros l. rewrite orders_index_eq. cbn [search afterCursor].
    rewrite orders_cursorFilters_some, Hdec by assumption.
    cbn [bind try_catch exec countDocuments memory collection].
    cbn [Orders.query Mongoose.sort Mongoose.populate Mongoose.limit
         Mongoose.find q_filter castable forallb castable_obj castable_cond
         snd].
    rewrite Hcast.
    change (forallb (fun kc => castable_cond (snd kc))
                    (Orders.searchFilter term))
      with (castable_obj (Orders.searchFilter term)).
    rewrite castable_orders_searchFilter. reflexivity. }
  exists (run docs (Orders.query [("_id", CLt k)] (Orders.searchFilter term))),
         (orders_total docs term), (orders_total (docs ++ added) term).
  split; [apply Hpage|]. rewrite Hpage. do 2 f_equal.
  rewrite !run_orders_query. f_equal.
  rewrite !filter_sort_desc. f_equal.
  rewrite !filter_app.
  replace (filter (matches_obj [("_id", CLt k)])
             (filter (matches_obj (Orders.searchFilter term)) added))
    with (@nil Doc); [now rewrite app_nil_r|].
  symmetry. induction added as [|d added IH]; [reflexivity|].
  apply Forall_cons_iff in Hadded as [Hd Hadded]. cbn [filter].
  destruct (matches_obj (Orders.searchFilter term) d); [|now apply IH].
  cbn [filter]. rewrite (matches_lt k id) by assumption.
  replace (doc_id d <? id)%N with false
    by (symmetry; apply N.ltb_ge; lia).
  now apply IH.
Qed.

End ListFacts.

(** ** The page info *)

Section PageInfoFacts.

Context {globals : Globals} {codec : CursorCodec}
        {engine : RegExpEngine} {S : Type}.

Lemma page_of_coherent (n : nat) (items : list Doc) (total : nat) :
  (0 < n)%nat -> coherent_page n (page_of n items total).
Proof.
  intros Hn. set (p := page_of n items total).
  split; [apply cursors_page_of|].
  assert (Hstart : startCursor (pageInfo p)
                   = if (0 <? List.length (edges p))%nat
                     then option_map cursor (nth_error (edges p) 0)
                     else None) by reflexivity.
  assert (Hend : endCursor (pageInfo p)
                 = if (0 <? List.length (edges p))%nat
                   then option_map cursor
                          (nth_error (edges p) (List.length (edges p) - 1))
                   else None) by reflexivity.
  assert (Hlast : forall es e,
             edges p = es ++ [e] ->
             endCursor (pageInfo p) = Some (cursor e)).
  { intros es e E. rewrite Hend, E, length_app. cbn [List.length].
    replace (0 <? List.length es + 1)%nat with true
      by (symmetry; apply Nat.ltb_lt; lia).
    replace (List.length es + 1 - 1)%nat with (List.length es + 0)%nat by lia.
    rewrite nth_error_app2, Nat.add_comm, Nat.add_sub by lia.
    reflexivity. }
  split; [|split; [|split; [exact Hlast|]]].
  - intros E. rewrite Hstart, Hend, E. now split.
  - intros e es E. rewrite Hstart, E. reflexivity.
  - intros Hmore.
    assert (Hlen : List.length (edges p) = n).
    { rewrite <- (length_map node). subst p.
      rewrite nodes_page_of. rewrite hasNextPage_page_of in Hmore.
      rewrite Hmore. apply Nat.ltb_lt in Hmore.
      rewrite length_firstn. lia. }
    split; [exact Hlen|].
    destruct (exists_last (l := edges p)) as (es & e & E).
    { intros E. rewrite E in Hlen. cbn in Hlen. lia. }
    rewrite (Hlast es e E). discriminate.
Qed.

(** Whatever the store returns, the page info of a page of either
    listing agrees with its edges: see [coherent_page]. *)
Theorem page_info_cursors (M : Model S) (s : S) (req : Request)
        (code : nat) (p : Page) :
  (Orders.index M s req = Send code p -> coherent_page 30 p)
  /\ (Products.index M s req = Send code p -> coherent_page 29 p).
Proof.
  split; intros E.
  - apply orders_index_send in E as (? & items & total & _ & _ & _ & _ & ->).
    apply (page_of_coherent 30). lia.
  - apply products_index_send in E
      as (? & ? & items & total & _ & _ & _ & _ & _ & ->).
    apply (page_of_coherent 29). lia.
Qed.

End PageInfoFacts.

(** ** The products listing, when the natural order is the order of ids *)

Section ProductsWalk.

Context {globals : Globals} {codec : CursorCodec}
        {engine : RegExpEngine}.

Lemma products_next_page (docs : list Doc) (term : option string)
      (sf : FilterObj) (k : ObjectId.t) :
  CodecLaws codec -> ObjectId.valid k ->
  Products.searchFilter term = Ok sf ->
  Products.index memory docs
    {| search := term;
       afterCursor := Some (encodeCursor (ObjectId.toHexString k)) |}
  = Send 200 (page_of Products.DEFAULT_PAGE_SIZE
                (firstn (Products.DEFAULT_PAGE_SIZE + 1)
                   (filter (fun d => (k <? doc_id d)%N)
                      (filter (matches_obj sf) docs)))
                (List.length (filter (matches_obj sf) docs))).
Proof.
  intros [Hrt Htr] Hk Hsf. rewrite products_index_eq.
  cbn [search afterCursor Products.cursorFilters]. rewrite Hsf.
  rewrite Htr, Hrt.
  cbn [bind try_catch exec countDocuments memory collection].
  cbn [Products.query Mongoose.limit Mongoose.find q_filter castable
       forallb castable_obj castable_cond snd].
  rewrite cast_toHexString by assumption.
  change (forallb (fun kc => castable_cond (snd kc)) sf)
    with (castable_obj sf).
  rewrite (castable_products_searchFilter term sf Hsf). cbn [andb bind].
  change (run docs _)
    with (run docs (Products.query [("_id", CGt (ObjectId.toHexString k))] sf)).
  rewrite run_products_query.
  rewrite (filter_ext _ (fun d => (k <? doc_id d)%N))
    by (intros d; apply matches_gt; now apply cast_toHexString).
  reflexivity.
Qed.

(** When the collection stores the products by increasing [_id], walking
    the products listing visits the records that match the search, each
    once, in that order, and ends on a page without a next one. *)
Theorem products_walk_exhaustive_if_ascending (docs : list Doc)
        (term : option string) (sf : FilterObj) :
  CodecLaws codec ->
  ascending docs ->
  Forall ObjectId.valid (keys docs) ->
  Products.searchFilter term = Ok sf ->
  exists pages,
    walk (Products.index memory docs) term (S (List.length docs)) None
    = Some pages
    /\ visited pages = filter (matches_obj sf) docs
    /\ ends_well pages
    /\ Forall (fun p =>
                 (List.length (edges p) <= Products.DEFAULT_PAGE_SIZE)%nat
                 /\ totalCount p = List.length (filter (matches_obj sf) docs))
              pages.
Proof.
  intros Hlaws Hasc Hvalid Hsf.
  apply (walk_from (Products.index memory docs) term
           Products.DEFAULT_PAGE_SIZE
           (List.length (filter (matches_obj sf) docs))
           (filter (matches_obj sf) docs))
    with (P := @nil Doc).
  - unfold Products.DEFAULT_PAGE_SIZE. lia.
  - intros P R d HL.
    assert (Hd : ObjectId.valid (doc_id d)).
    { rewrite Forall_forall in Hvalid. apply Hvalid. apply in_map.
      assert (Hin : In d (filter (matches_obj sf) docs))
        by (rewrite HL; apply in_or_app; right; now left).
      now apply filter_In in Hin. }
    unfold id_of. rewrite (products_next_page docs term sf) by assumption.
    rewrite HL.
    rewrite ascending_after
      by (rewrite <- HL; now apply filter_ascending).
    reflexivity.
  - reflexivity.
  - unfold memory.
    apply (products_first_page (fun l => l) (fun l _ => l) (fun _ => true));
      auto.
  - pose proof (filter_length_le (matches_obj sf) docs). lia.
Qed.

End ProductsWalk.

(** ** The handlers on the database *)

Section DbFacts.

Context {globals : Globals} {codec : CursorCodec}
        {engine : RegExpEngine} {bson : Bson}.
Variable valid_order valid_product : Doc -> bool.

Lemma index_OrderModel (db : Db) (req : Request) :
  Orders.index (OrderModel valid_order) db req
  = Orders.index memory (orders db) req.
Proof. reflexivity. Qed.

Lemma update_first_keys (p : Doc -> bool) (u : Update) (docs docs' : list Doc) :
  update_first p u docs = Ok docs' -> keys docs' = keys docs.
Proof.
  revert docs'. induction docs as [|d docs IH]; intros docs'.
  - intros [= <-]. reflexivity.
  - cbn [update_first]. destruct (p d).
    + destruct (apply_update u d) as [d'|] eqn:E; [|discriminate].
      intros [= <-]. cbn. f_equal.
      destruct u as [fields|f v]; cbn in E.
      * now injection E as <-.
      * destruct (lookup f (doc_fields d)) as [[]|]; try discriminate;
          now injection E as <-.
    + destruct (update_first p u docs) as [rest|]; [|discriminate].
      intros [= <-]. cbn. f_equal. now apply IH.
Qed.

Lemma matches_unarchived (d : Doc) :
  archived d = Some (VBool false) ->
  matches_obj (Orders.searchFilter None) d = true.
Proof.
  intros Hd.
  change (Orders.searchFilter None) with [("archived", CEq (VBool false))].
  unfold matches_obj. cbn [forallb fst snd matches_cond].
  change (doc_field d "archived") with (archived d).
  now rewrite Hd.
Qed.

(** An order created with answer 201 is in the orders collection from
    then on, not archived and under the fresh id, which no order had
    before; the products are untouched and no batch appears or
    disappears; the listing reports one order more and lists the new
    one. *)
Theorem orders_add_then_listed (db db' : Db) (fresh : ObjectId.t) (now : Z)
        (req : ItemRequest) (code : nat) (id : string) :
  Orders.add (OrderModel valid_order) BatchModel fresh now db req
  = (Some (Send code id), db') ->
  exists d,
    orders db' = orders db ++ [d]
    /\ doc_id d = fresh
    /\ ~ In fresh (keys (orders db))
    /\ archived d = Some (VBool false)
    /\ products db' = products db
    /\ keys (batches db') = keys (batches db)
    /\ orders_total (orders db') None = S (orders_total (orders db) None)
    /\ In d (orders_listing (orders db') None).
Proof.
  intros E. apply orders_add_sent in E
    as (client & batch & deliverAt & items & items' & s1
        & _ & _ & _ & _ & _ & Hsave & Hupd & _ & _).
  match type of Hsave with
  | save _ _ ?doc = _ => set (d := doc) in *
  end.
  assert (Hid : doc_id d = fresh) by reflexivity.
  assert (Harch : archived d = Some (VBool false)) by reflexivity.
  cbn [save OrderModel collection] in Hsave.
  destruct (valid_order d && _) eqn:Hok; [|discriminate].
  injection Hsave as <-.
  cbn [findByIdAndUpdate BatchModel collection] in Hupd.
  destruct (cast_id batch) as [k|]; [|discriminate].
  cbn [batches orders products] in Hupd.
  destruct (update_first _ _ (batches db)) as [docs'|] eqn:Eb; [|discriminate].
  cbn [bind] in Hupd. injection Hupd as <-. cbn [orders products batches].
  apply andb_true_iff in Hok as [_ Hfresh].
  apply negb_true_iff in Hfresh.
  assert (Hm : matches_obj (Orders.searchFilter None) d = true)
    by now apply matches_unarchived.
  exists d. repeat split; auto.
  - intros Hin. unfold keys in Hin. apply in_map_iff in Hin as (x & Hx & Hin).
    rewrite <- not_true_iff_false in Hfresh. apply Hfresh.
    apply existsb_exists. exists x. split; [assumption|].
    apply N.eqb_eq. congruence.
  - now apply update_first_keys in Eb.
  - unfold orders_total. rewrite filter_app, length_app. cbn [filter].
    rewrite Hm. cbn. lia.
  - apply orders_listing_In. split; [|exact Hm].
    apply in_or_app. right. now left.
Qed.

(** Archival is soft: the archived order is still served by [get], with
    [archived] set. *)
Theorem archived_still_served (docs : list Doc) (req : ItemRequest)
        (k : ObjectId.t) (d : Doc) :
  NoDup (keys docs) ->
  newObjectId (Some (VStr (params_id req))) = Ok k ->
  ObjectId.cast (params_id req) = Some k ->
  In d docs -> doc_id d = k ->
  exists docs' d',
    Orders.archive memory docs req = (SendStatus 200, docs')
    /\ Orders.get memory docs' req = Send 200 (Some d')
    /\ doc_id d' = k
    /\ archived d' = Some (VBool true).
Proof.
  intros Hnd Hid Hcast Hd Hk.
  set (docs' := updated k [("archived", VBool true)] docs).
  set (d' := set_fields [("archived", VBool true)] d).
  assert (Hd' : In d' docs') by now apply In_updated_same.
  exists docs', d'. split; [now apply orders_archive_memory|].
  split; [|split].
  - rewrite (proj1 (get_memory docs' req)), Hcast. f_equal.
    replace k with (doc_id d') by exact Hk.
    apply find_id_present; [|exact Hd'].
    subst docs'. now rewrite keys_updated.
  - exact Hk.
  - now apply (archived_in_updated k docs).
Qed.

End DbFacts.

(** ** The conversion of the items of a new order *)

Section ItemFacts.

Context {bson : Bson}.


End ItemFacts.

(** ** A cursor that is no key *)

Section CursorFacts.

Context {globals : Globals} {codec : CursorCodec}
        {engine : RegExpEngine}.

(** A cursor that decodes to a string that cannot be cast to an object
    id (neither 12 bytes nor 24 hexadecimal digits) is answered with
    status 422 by both listings: it is not taken for an absent cursor. *)
Theorem uncastable_cursor_rejected (docs : list Doc) (term : option string)
        (c k : string) :
  c <> "" ->
  decodeCursor c = Ok k ->
  ObjectId.cast k = None ->
  Orders.index memory docs {| search := term; afterCursor := Some c |}
  = SendStatus 422
  /\ Products.index memory docs {| search := term; afterCursor := Some c |}
     = SendStatus 422.
Proof.
  intros Hc Hdec Hcast. split.
  - rewrite orders_index_eq. cbn [search afterCursor].
    rewrite orders_cursorFilters_some, Hdec by assumption.
    cbn [bind try_catch exec memory collection].
    cbn [Orders.query Mongoose.sort Mongoose.populate Mongoose.limit
         Mongoose.find q_filter castable forallb castable_obj castable_cond
         snd].
    now rewrite Hcast.
  - rewrite products_index_eq. cbn [search afterCursor].
    destruct (Products.searchFilter term) as [sf|]; [|reflexivity].
    rewrite products_cursorFilters_some, Hdec by assumption.
    cbn [bind try_catch exec memory collection].
    cbn [Products.query Mongoose.limit Mongoose.find q_filter castable
         forallb castable_obj castable_cond snd].
    now rewrite Hcast.
Qed.

End CursorFacts.


Lemma uncastable_cursor_rejected_witness :
  Orders.index (codec := laxCodec) memory orders3
    {| search := None; afterCursor := Some "id:oops" |} = SendStatus 422.
Proof.
  apply (proj1 (uncastable_cursor_rejected (codec := laxCodec) orders3 None
                  "id:oops" "oops" ltac:(discriminate) eq_refl eq_refl)).
Defined.

(** ** Instances of the properties above *)

Lemma NoDup_ids (from count : nat) : NoDup (ids from count).
Proof.
  unfold ids. apply Finite.Injective_map_NoDup; [|apply seq_NoDup].
  intros x y. apply Nat2N.inj.
Qed.

Lemma well_keyed_orders65 : well_keyed orders65.
Proof.
  assert (Hkeys : keys orders65 = ids 1 65) by (vm_compute; reflexivity).
  unfold well_keyed. rewrite Hkeys. split; [apply NoDup_ids|].
  apply Forall_forall. intros k Hk. unfold ids in Hk.
  apply in_map_iff in Hk as (n & <- & Hn). apply in_seq in Hn.
  unfold ObjectId.valid.
  assert (H96 : (66 <= 2 ^ 96)%N) by (vm_compute; discriminate).
  lia.
Qed.

Lemma NoDup_orders3 : NoDup (keys orders3).
Proof. apply (NoDup_ids 1 3). Qed.

Lemma orders_walk_exhaustive_witness :
  exists pages,
    walk (Orders.index memory orders65) (Some "7") 66 None = Some pages
    /\ visited pages = orders_listing orders65 (Some "7")
    /\ ends_well pages.
Proof.
  destruct (orders_walk_exhaustive orders65 (Some "7") base64_laws
              well_keyed_orders65) as (pages & Hw & Hv & _ & _ & He & _).
  exists pages. repeat split; assumption.
Defined.

Lemma products_walk_exhaustive_if_ascending_witness :
  exists pages,
    walk (Products.index memory products40) None 41 None = Some pages
    /\ visited pages = products40.
Proof.
  assert (Hasc : ascending products40) by (unfold ascending; repeat constructor).
  assert (Hvalid : Forall ObjectId.valid (keys products40)).
  { assert (Hkeys : keys products40 = ids 1 40) by (vm_compute; reflexivity).
    rewrite Hkeys. apply Forall_forall. intros k Hk. unfold ids in Hk.
    apply in_map_iff in Hk as (n & <- & Hn). apply in_seq in Hn.
    unfold ObjectId.valid.
    assert (H96 : (41 <= 2 ^ 96)%N) by (vm_compute; discriminate).
    lia. }
  destruct (products_walk_exhaustive_if_ascending products40 None
              [("archived", CEq (VBool false))] base64_laws Hasc Hvalid
              eq_refl) as (pages & Hw & Hv & _).
  exists pages. split; [exact Hw|]. rewrite Hv. vm_compute. reflexivity.
Defined.

Lemma page_info_cursors_witness :
  coherent_page 30
    (page_of 30 (firstn 31 (orders_listing orders65 None)) 65).
Proof.
  apply (proj1 (page_info_cursors memory orders65
                  {| search := None; afterCursor := None |} 200 _)).
  vm_compute. reflexivity.
Defined.

Lemma listed_are_live_witness :
  Forall (fun e =>
            archived (node e) = Some (VBool false)
            /\ exists d,
                 In d orders65
                 /\ doc_id d = doc_id (node e)
                 /\ lookup "batch" (doc_fields d) = Some (VNum 7))
         (edges (page_of 30 (firstn 31 (orders_listing orders65 (Some "7")))
                         32)).
Proof.
  assert (E : Orders.index memory orders65
                {| search := Some "7"; afterCursor := None |}
              = Send 200 (page_of 30
                            (firstn 31 (orders_listing orders65 (Some "7")))
                            32)) by (vm_compute; reflexivity).
  apply (proj1 (listed_are_live _ _ _ _)) in E.
  eapply Forall_impl; [|exact E].
  intros e (Ha & d & Hin & Hid & Hbatch).
  split; [exact Ha|]. exists d. split; [exact Hin|]. split; [exact Hid|].
  apply (Hbatch 7%Z); [reflexivity|discriminate].
Defined.

Lemma archived_not_listed_witness :
  ~ In 2%N
      (keys (map node
               (edges (page_of 30
                         [order 3 8 false; order 1 7 false] 2)))).
Proof.
  assert (Hid : newObjectId (Some (VStr (params_id (on 2 [])))) = Ok 2%N)
    by (vm_compute; reflexivity).
  apply (proj1 (archived_not_listed orders3
                  (updated 2%N [("archived", VBool true)] orders3)
                  (on 2 []) 2%N {| search := None; afterCursor := None |}
                  200 _ NoDup_orders3 Hid));
    vm_compute; reflexivity.
Defined.

Lemma orders_page_descending_witness :
  descending
    (map node
       (edges (page_of 30 (firstn 31 (orders_listing orders65 None)) 65))).
Proof.
  apply (orders_page_descending orders65
           {| search := None; afterCursor := None |} 200 _
           (proj1 well_keyed_orders65)).
  vm_compute. reflexivity.
Defined.

Lemma orders_page_stable_under_inserts_witness :
  exists items total total',
    Orders.index memory orders65
      {| search := None; afterCursor := Some (cursor_of 36%N) |}
    = Send 200 (page_of 30 items total)
    /\ Orders.index memory (orders65 ++ [order 66 7 false; order 67 8 false])
         {| search := None; afterCursor := Some (cursor_of 36%N) |}
       = Send 200 (page_of 30 items total').
Proof.
  apply (orders_page_stable_under_inserts orders65
           [order 66 7 false; order 67 8 false] None (cursor_of 36%N)
           (ObjectId.toHexString 36%N) 36%N).
  - discriminate.
  - vm_compute. reflexivity.
  - vm_compute. reflexivity.
  - repeat constructor; vm_compute; discriminate.
Defined.

Lemma archive_effect_witness :
  Orders.archive memory orders3 (on 2 [])
  = (SendStatus 200, [order 1 7 false; order 2 7 true; order 3 8 false]).
Proof.
  assert (Hid : newObjectId (Some (VStr (params_id (on 2 [])))) = Ok 2%N)
    by (vm_compute; reflexivity).
  exact (proj1 (archive_effect orders3 (on 2 []) 2%N NoDup_orders3 Hid)).
Defined.

Lemma orders_update_effect_witness :
  exists docs',
    Orders.update memory orders3
      (on 2 [("client", VStr "bob"); ("batch", VNum 0)])
    = (SendStatus 200, docs')
    /\ map archived docs' = map archived orders3.
Proof.
  assert (Hid : newObjectId (Some (VStr (ObjectId.toHexString 2%N))) = Ok 2%N)
    by (vm_compute; reflexivity).
  destruct (orders_update_effect orders3
              (on 2 [("client", VStr "bob"); ("batch", VNum 0)]) 2%N
              NoDup_orders3 Hid eq_refl)
    as (docs' & Hu & _ & Ha & _).
  exists docs'. split; assumption.
Defined.

Lemma get_outcomes_witness :
  Orders.get memory orders3 (on 5 []) = Send 200 None
  /\ Products.get memory orders3 (on 2 [])
     = Send 200 (Some (order 2 7 false))
  /\ Orders.get memory orders3 {| params_id := "oops"; body := [] |}
     = SendStatus 422.
Proof.
  split; [|split].
  - assert (Hcast : ObjectId.cast (params_id (on 5 [])) = Some 5%N)
      by (vm_compute; reflexivity).
    apply (proj1 (proj2 (get_outcomes orders3 (on 5 [])) 5%N Hcast)).
    vm_compute. intuition discriminate.
  - assert (Hcast : ObjectId.cast (params_id (on 2 [])) = Some 2%N)
      by (vm_compute; reflexivity).
    apply (proj2 (proj2 (get_outcomes orders3 (on 2 [])) 2%N Hcast)
             (order 2 7 false) NoDup_orders3).
    + vm_compute. auto.
    + reflexivity.
  - assert (Hcast : ObjectId.cast "oops" = None) by (vm_compute; reflexivity).
    apply (proj1 (get_outcomes orders3 {| params_id := "oops"; body := [] |})
             Hcast).
Defined.

Lemma orders_update_outcomes_witness :
  Orders.update memory orders3 (on 2 [("client", VStr "")])
  = (SendStatus 400, orders3).
Proof.
  exact (proj1 (proj1 (orders_update_outcomes memory orders3
                         (on 2 [("client", VStr "")]))) eq_refl).
Defined.

Lemma products_update_outcomes_witness :
  Products.update memory products21 (on 2 [("description", VNull)])
  = (SendStatus 400, products21).
Proof.
  exact (proj1 (proj1 (products_update_outcomes memory products21
                         (on 2 [("description", VNull)]))) eq_refl).
Defined.

Lemma orders_add_created_witness :
  exists (d : Doc) (s1 : Db),
    save (OrderModel always) db0 d = Ok s1
    /\ doc_id d = 4%N
    /\ archived d = Some (VBool false).
Proof.
  destruct (orders_add_created (OrderModel always) BatchModel 4%N 100%Z
              db0 (snd (Orders.add (OrderModel always) BatchModel 4%N 100%Z
                          db0 (on 0 (order_body (VStr (ObjectId.toHexString 9%N))))))
              (on 0 (order_body (VStr (ObjectId.toHexString 9%N))))
              201 (ObjectId.toHexString 4%N))
    as (_ & _ & d & s1 & _ & Hsave & Hid & Harch & _).
  - vm_compute. reflexivity.
  - exists d, s1. repeat split; assumption.
Defined.

Lemma orders_add_silent_witness :
  exists (d : Doc) (s1 : Db),
    doc_id d = 4%N
    /\ save (OrderModel always) db0 d = Ok s1
    /\ Orders.add (OrderModel always) BatchModel 4%N 100%Z db0
         (on 0 (order_body (VNum 5))) = (None, s1).
Proof.
  destruct (orders_add_silent (OrderModel always) BatchModel 4%N 100%Z db0
              (on 0 (order_body (VNum 5))))
    as (d & s1 & _ & _ & Hid & Hsave & _ & _ & Hsnd).
  - vm_compute. reflexivity.
  - exists d, s1. split; [exact Hid|]. split; [exact Hsave|].
    rewrite <- Hsnd. vm_compute. reflexivity.
Defined.

Lemma orders_add_bad_items_witness :
  Orders.add (OrderModel always) BatchModel 4%N 100%Z db0
    (on 0 [("client", VStr "ann"); ("batch", VStr "b");
           ("deliverAt", VStr "2021-05-01"); ("items", VStr "two plums")])
  = (Some (SendStatus 422), db0).
Proof.
  apply (orders_add_bad_items (OrderModel always) BatchModel 4%N 100%Z db0
           _ (VStr "two plums") TypeError); reflexivity.
Defined.

Lemma products_add_outcomes_witness :
  Products.add (ProductModel always) 4%N db0 (on 0 [])
  = (SendStatus 400, db0).
Proof.
  exact (proj1 (products_add_outcomes (ProductModel always) 4%N db0
                  (on 0 [])) eq_refl).
Defined.

Lemma orders_add_then_listed_witness :
  exists d,
    doc_id d = 4%N
    /\ orders_total
         (orders (snd (Orders.add (OrderModel always) BatchModel 4%N 100%Z db0
                         (on 0 (order_body (VStr (ObjectId.toHexString 9%N)))))))
         None = 4%nat.
Proof.
  destruct (orders_add_then_listed always db0
              (snd (Orders.add (OrderModel always) BatchModel 4%N 100%Z db0
                      (on 0 (order_body (VStr (ObjectId.toHexString 9%N))))))
              4%N 100%Z
              (on 0 (order_body (VStr (ObjectId.toHexString 9%N))))
              201 (ObjectId.toHexString 4%N))
    as (d & _ & Hid & _ & _ & _ & _ & Htotal & _).
  - vm_compute. reflexivity.
  - exists d. split; [exact Hid|]. rewrite Htotal. reflexivity.
Defined.

Lemma archived_still_served_witness :
  exists docs' d',
    Orders.archive memory orders3 (on 2 []) = (SendStatus 200, docs')
    /\ Orders.get memory docs' (on 2 []) = Send 200 (Some d')
    /\ doc_id d' = 2%N
    /\ archived d' = Some (VBool true).
Proof.
  apply (archived_still_served orders3 (on 2 []) 2%N (order 2 7 false)
           NoDup_orders3).
  - vm_compute. reflexivity.
  - vm_compute. reflexivity.
  - vm_compute. auto.
  - reflexivity.
Defined.
